(** * dpp::snowflake and dpp::managed: a shallow embedding

    Sources embedded here:
      - include/dpp/snowflake.h   (class snowflake_t<void>, class snowflake_t<T>, std::hash)
      - src/dpp/snowflake.cpp     (constructors, assignment, comparison, decoding)
      - include/dpp/managed.h     (class managed<T>)

    A [uint64_t] is a [Z] in the range [0, 2^64); every narrowing cast of the
    source is written out as a reduction modulo a power of two.  The C++
    standard library functions the source calls ([std::stoull],
    [std::to_string], [std::hash<uint64_t>]) are not part of the repository:
    the first two are modelled by their specified behaviour in the "C" locale,
    the hash is a section variable. *)

From Stdlib Require Import ZArith Bool List String Ascii Lia.
From Stdlib Require Import Floats.SpecFloat.

Local Open Scope Z_scope.

(** ** Machine integers *)

Definition UINT64_MOD : Z := 2 ^ 64.
Definition ULLONG_MAX : Z := 2 ^ 64 - 1.

Definition is_uint64 (z : Z) : Prop := 0 <= z < UINT64_MOD.

(** Conversion to [uint64_t], [uint16_t] and [uint8_t]: reduction modulo 2^w. *)
Definition to_uint64 (z : Z) : Z := z mod 2 ^ 64.
Definition to_uint16 (z : Z) : Z := z mod 2 ^ 16.
Definition to_uint8 (z : Z) : Z := z mod 2 ^ 8.

(** ** Exceptions and the error monad

    A computation that may throw is a value of [exception + A]; [inl e] is
    "the exception [e] propagates to the caller". *)

Inductive exception : Type :=
| invalid_argument
| out_of_range.

Definition throws (A : Type) : Type := (exception + A)%type.

Definition ret {A : Type} (a : A) : throws A := inr a.
Definition throw {A : Type} (e : exception) : throws A := inl e.

Definition bind {A B : Type} (m : throws A) (k : A -> throws B) : throws B :=
  match m with
  | inl e => inl e
  | inr a => k a
  end.

(** [try { body } catch (const std::exception &) { handler }]: both
    exceptions of this development derive from [std::exception]. *)
Definition try_catch {A : Type} (body : throws A) (handler : exception -> throws A)
  : throws A :=
  match body with
  | inl e => handler e
  | inr a => inr a
  end.

Notation "x <- m ;; k" := (bind m (fun x => k))
  (at level 61, m at next level, right associativity).

(** ** std::stoull (base 10)

    [std::stoull(str)] calls [strtoull(str.c_str(), &end, 10)]: it skips
    leading white space, reads an optional sign, then the longest run of
    decimal digits.  With no digit it throws [std::invalid_argument]; when the
    magnitude exceeds [ULLONG_MAX] it throws [std::out_of_range]; a leading
    minus sign negates the result in the unsigned type.  Whatever follows the
    digit run is left unread. *)

Definition isspace (c : ascii) : bool :=
  let n := Z.of_nat (nat_of_ascii c) in
  (n =? 32) || ((9 <=? n) && (n <=? 13)).

Definition isdigit (c : ascii) : bool :=
  let n := Z.of_nat (nat_of_ascii c) in
  (48 <=? n) && (n <=? 57).

Definition digit_of (c : ascii) : Z := Z.of_nat (nat_of_ascii c) - 48.

Fixpoint skip_spaces (s : string) : string :=
  match s with
  | String c rest => if isspace c then skip_spaces rest else s
  | EmptyString => s
  end.

(** Returns [true] for a minus sign, and the text after the sign. *)
Definition read_sign (s : string) : bool * string :=
  match s with
  | String c rest =>
      if Ascii.eqb c "-" then (true, rest)
      else if Ascii.eqb c "+" then (false, rest)
      else (false, s)
  | EmptyString => (false, s)
  end.

(** The digit loop: [acc] is the magnitude read so far, [seen] whether a
    digit has been consumed. *)
Fixpoint read_digits (s : string) (seen : bool) (acc : Z) : bool * Z :=
  match s with
  | String c rest =>
      if isdigit c then read_digits rest true (acc * 10 + digit_of c)
      else (seen, acc)
  | EmptyString => (seen, acc)
  end.

Definition stoull (str : string) : throws Z :=
  let '(negative, body) := read_sign (skip_spaces str) in
  let '(seen, magnitude) := read_digits body false 0 in
  if negb seen then throw invalid_argument
  else if ULLONG_MAX <? magnitude then throw out_of_range
  else ret (if negative then to_uint64 (- magnitude) else magnitude).

(** ** std::to_string (unsigned long long)

    The decimal rendering of printf's [%llu]: digits are produced from the
    least significant one; twenty steps cover every 64-bit value. *)

Definition digit_char (d : Z) : ascii := ascii_of_nat (Z.to_nat (48 + d)).

Fixpoint to_chars (fuel : nat) (n : Z) (acc : string) : string :=
  match fuel with
  | O => acc
  | S fuel' =>
      let acc' := String (digit_char (n mod 10)) acc in
      if n <? 10 then acc' else to_chars fuel' (n / 10) acc'
  end.

Definition to_string (n : Z) : string := to_chars 20 n EmptyString.

(** ** nlohmann::json values (the kinds this development needs) *)

Inductive json : Type :=
| json_null
| json_boolean (b : bool)
| json_number_integer (n : Z)
| json_number_unsigned (n : Z)
| json_string (s : string).

(** ** IEEE 754 binary64

    [double] is [spec_float] at precision 53 and maximal exponent 1024, with
    the operations of the standard library's executable specification. *)

Definition double : Type := spec_float.

Definition double_prec : Z := 53.
Definition double_emax : Z := 1024.

(** [(double) n] for an unsigned integer [n], rounding to nearest even. *)
Definition double_of_uint64 (n : Z) : double :=
  binary_normalize double_prec double_emax n 0 false.

Definition double_div (x y : double) : double := SFdiv double_prec double_emax x y.

(** [x <= y] and [x < y] on doubles. *)
Definition double_le (x y : double) : bool := SFleb x y.
Definition double_lt (x y : double) : bool := SFltb x y.

(** ** Entity categories: the template argument of [snowflake_t] *)

Inductive category : Type :=
| void
| guild
| role
| other (name : string).

(** [std::is_same_v]. *)
Definition is_same (a b : category) : bool :=
  match a, b with
  | void, void => true
  | guild, guild => true
  | role, role => true
  | other n, other m => String.eqb n m
  | _, _ => false
  end.

(** ** class snowflake_t *)

(** The single data member, [uint64_t value]; the category is a phantom
    parameter, as the template argument is in the source. *)
Record snowflake_t (T : category) : Type := Build_snowflake { value : Z }.

Arguments Build_snowflake {T} _.
Arguments value {T} _.

(** [using snowflake = snowflake_t<void>]. *)
Definition snowflake : Type := snowflake_t void.

(** [class snowflake_t<T> final : public snowflake_t<void>]: the base
    sub-object of a typed identifier. *)
Definition to_base {T : category} (s : snowflake_t T) : snowflake :=
  Build_snowflake (value s).

Module Snowflake.

(** [snowflake_t<void>::snowflake_t(const uint64_t &value)]. *)
Definition from_uint64 (v : Z) : snowflake := Build_snowflake v.

(** [snowflake_t<void>::snowflake_t(const std::string &string_value)]. *)
Definition from_string (string_value : string) : throws snowflake :=
  try_catch
    (v <- stoull string_value ;; ret (Build_snowflake v))
    (fun _ => ret (Build_snowflake 0)).

(** [snowflake_t<void>::snowflake_t()], delegating to [snowflake(0)]. *)
Definition default : snowflake := from_uint64 0.

(** [operator uint64_t() const]. *)
Definition to_integer (self : snowflake) : Z := value self.

(** [operator=(const std::string &)]: the result is the new state of
    [*this]. *)
Definition assign_string (self : snowflake) (snowflake_val : string)
  : throws snowflake :=
  try_catch
    (v <- stoull snowflake_val ;; ret (Build_snowflake v))
    (fun _ => ret (Build_snowflake 0)).

(** [operator=(const uint64_t &)]. *)
Definition assign_uint64 (self : snowflake) (snowflake_val : Z) : snowflake :=
  Build_snowflake snowflake_val.

(** [empty() const]. *)
Definition empty (self : snowflake) : bool := value self =? 0.

(** [operator==(const snowflake &other) const]. *)
Definition op_eq (self other : snowflake) : bool := value other =? value self.

(** [operator==(const uint64_t &other) const]. *)
Definition op_eq_uint64 (self : snowflake) (other : Z) : bool :=
  other =? value self.

(** [friend operator<(const snowflake_t &lhs, const snowflake_t &rhs)]. *)
Definition op_lt (lhs rhs : snowflake) : bool := value lhs <? value rhs.

(** [operator nlohmann::json() const]: "Discord transfers snowflakes as
    strings for compatibility with javascript". *)
Definition to_json (self : snowflake) : json :=
  json_string (to_string (value self)).

(** [get_creation_time() const]:
    [(double)((value >> 22) + first_january_2016) / 1000.0]. *)
Definition first_january_2016 : Z := 1420070400000.

Definition get_creation_time (self : snowflake) : double :=
  double_div
    (double_of_uint64 (to_uint64 (Z.shiftr (value self) 22 + first_january_2016)))
    (double_of_uint64 1000).

(** [get_worker_id() const]. *)
Definition get_worker_id (self : snowflake) : Z :=
  to_uint8 (Z.shiftr (Z.land (value self) 0x3E0000) 17).

(** [get_process_id() const]. *)
Definition get_process_id (self : snowflake) : Z :=
  to_uint8 (Z.shiftr (Z.land (value self) 0x1F000) 12).

(** [get_increment() const]. *)
Definition get_increment (self : snowflake) : Z :=
  to_uint16 (Z.land (value self) 0xFFF).

End Snowflake.

(** ** class snowflake_t<T>, the typed form *)

Module Typed.

(** [template <typename U, enable_if_t<is_integral_v<U>>> snowflake_t(U value)]:
    the argument is converted to [uint64_t] for the base constructor. *)
Definition from_integral (T : category) (v : Z) : snowflake_t T :=
  Build_snowflake (value (Snowflake.from_uint64 (to_uint64 v))).

(** [snowflake_t(const std::string &string_value)]. *)
Definition from_string (T : category) (string_value : string)
  : throws (snowflake_t T) :=
  b <- Snowflake.from_string string_value ;; ret (Build_snowflake (value b)).

(** [snowflake_t(const snowflake_t &value)], the copy constructor. *)
Definition copy {T : category} (v : snowflake_t T) : snowflake_t T :=
  Build_snowflake (value (Snowflake.from_uint64 (value v))).

(** The constraint of the converting constructor template:
    [is_same_v<U, void> || is_same_v<T, role> && is_same_v<U, guild>]. *)
Definition converting_enabled (T U : category) : bool :=
  is_same U void || (is_same T role && is_same U guild).

(** [snowflake_t(const snowflake_t<U> &value)
       : snowflake_t<void>(static_cast<uint64_t>(value))]. *)
Definition converting {T U : category} (v : snowflake_t U) : snowflake_t T :=
  Build_snowflake
    (value (Snowflake.from_uint64 (Snowflake.to_integer (to_base v)))).

(** Initialising a [snowflake_t<T>] from a [snowflake_t<U>].  For [T = void]
    the copy constructor of the base class binds to the base sub-object of
    the argument, every [snowflake_t<U>] deriving publicly from
    [snowflake_t<void>] ([managed<T>::operator==] passes its typed ids to
    [snowflake::operator==] this way).  For a tagged [T] the candidates are
    the copy constructor ([U = T]) and the converting constructor when its
    constraint holds.  [None] stands for "no viable constructor": the program
    is rejected by the compiler. *)
Definition convert (T U : category) (v : snowflake_t U) : option (snowflake_t T) :=
  match T with
  | void => Some (Build_snowflake (value (to_base v)))
  | _ =>
      if is_same T U then Some (Build_snowflake (value v))
      else if converting_enabled T U then Some (converting v)
      else None
  end.

End Typed.

(** ** std::hash

    [std::hash<uint64_t>] is the standard library's: any function will do. *)

Section Hash.

Variable std_hash_uint64 : Z -> Z.

(** [std::hash<dpp::snowflake_t<T>>::operator()], for every [T], [void]
    included. *)
Definition hash {T : category} (s : snowflake_t T) : Z :=
  std_hash_uint64 (value s).

End Hash.

(** ** class managed<T> *)

Record managed (T : category) : Type := Build_managed { id : snowflake_t T }.

Arguments Build_managed {T} _.
Arguments id {T} _.

(** A concrete entity class: it derives from [managed<T>] and carries state
    of its own. *)
Record entity (T : category) (State : Type) : Type :=
  Build_entity { as_managed : managed T; state : State }.

Arguments Build_entity {T State} _ _.
Arguments as_managed {T State} _.
Arguments state {T State} _.

Module Managed.

(** [explicit managed(const snowflake_t<T> nid = snowflake_t<T>{0})]. *)
Definition make {T : category} (nid : snowflake_t T) : managed T :=
  Build_managed nid.

Definition make_default (T : category) : managed T :=
  make (Typed.from_integral T 0).

(** [get_creation_time() const]. *)
Definition get_creation_time {T : category} (self : managed T) : double :=
  Snowflake.get_creation_time (to_base (id self)).

(** [operator==(const managed &other) const]: [id == other.id]. *)
Definition op_eq {T : category} (self other : managed T) : bool :=
  Snowflake.op_eq (to_base (id self)) (to_base (id other)).

(** [operator!=(const managed &other) const]: [!(id == other.id)]. *)
Definition op_ne {T : category} (self other : managed T) : bool :=
  negb (Snowflake.op_eq (to_base (id self)) (to_base (id other))).

End Managed.

(** * Specification vocabulary

    The notions the properties below are phrased with.  They follow the
    wording of the specification and use nothing of the program but the
    character classes and the conversion of an integer literal to
    [double]. *)

Fixpoint all_spaces (s : string) : bool :=
  match s with
  | String c rest => isspace c && all_spaces rest
  | EmptyString => true
  end.

Fixpoint all_digits (s : string) : bool :=
  match s with
  | String c rest => isdigit c && all_digits rest
  | EmptyString => true
  end.

Fixpoint has_non_digit (s : string) : bool :=
  match s with
  | String c rest => negb (isdigit c) || has_non_digit rest
  | EmptyString => false
  end.

(** Positional value of a digit string: the digit at distance [k] from the
    end weighs [10^k]. *)
Fixpoint decimal_value (s : string) : Z :=
  match s with
  | String c rest => digit_of c * 10 ^ Z.of_nat (String.length rest) + decimal_value rest
  | EmptyString => 0
  end.

(** A valid base-10 decimal string: one digit at least, digits only. *)
Definition valid_decimal (s : string) : Prop :=
  s <> EmptyString /\ all_digits s = true.

(** A decimal string with no superfluous leading zero. *)
Definition canonical_decimal (s : string) : Prop :=
  valid_decimal s /\
  (s = "0"%string \/ match s with String c _ => c <> "0"%char | EmptyString => False end).

Definition starts_with (p : ascii -> bool) (s : string) : bool :=
  match s with
  | String c _ => p c
  | EmptyString => false
  end.

Definition is_sign_char (c : ascii) : bool := Ascii.eqb c "-" || Ascii.eqb c "+".

Inductive sign : Type := no_sign | plus_sign | minus_sign.

Definition sign_text (g : sign) : string :=
  match g with
  | no_sign => EmptyString
  | plus_sign => "+"%string
  | minus_sign => "-"%string
  end.

Definition is_minus (g : sign) : bool :=
  match g with minus_sign => true | _ => false end.

(** [s] starts with a numeric token: white space [ws], a sign [g], the digit
    run [ds] (one digit at least, as long as possible), then [rest]. *)
Definition numeric_token (s ws : string) (g : sign) (ds rest : string) : Prop :=
  s = (ws ++ sign_text g ++ ds ++ rest)%string /\
  all_spaces ws = true /\
  valid_decimal ds /\
  starts_with isdigit rest = false.

(** [s] has no numeric token: after the white space and the sign (when there is
    one) no digit follows. *)
Definition no_numeric_token (s : string) : Prop :=
  exists ws g rest,
    s = (ws ++ sign_text g ++ rest)%string /\
    all_spaces ws = true /\
    starts_with isdigit rest = false /\
    (g = no_sign ->
     starts_with isspace rest = false /\ starts_with is_sign_char rest = false).

(** The raw value that packs a timestamp [t], a worker id [w], a process id
    [p] and an increment [i]: [(t << 22) | (w << 17) | (p << 12) | i] in
    64-bit unsigned arithmetic. *)
Definition packed_value (t w p i : Z) : Z :=
  Z.lor (Z.lor (Z.lor (to_uint64 (Z.shiftl t 22)) (Z.shiftl w 17)) (Z.shiftl p 12)) i.

(** The instant 2015-01-01T00:00:00 UTC in seconds, [1420070400.0]. *)
Definition epoch_instant : double := double_of_uint64 1420070400.

(** A finite positive double stands for the number [m * 2^e]; [scaled k x]
    is that number times [2^k], an integer as soon as [0 <= e + k]. *)
Definition scaled (k : Z) (x : double) : Z :=
  match x with
  | S754_finite false m e => Z.pos m * 2 ^ (e + k)
  | _ => 0
  end.

(** The timestamp field of an identifier: the 42 bits above the worker id,
    in milliseconds since the epoch of [get_creation_time]. *)
Definition timestamp_of (s : snowflake) : Z := Z.shiftr (value s) 22.

(** * Properties *)

(** Rewriting a comparison whose outcome [lia] decides. *)
Ltac ltb_true := match goal with
  | |- context [?a <? ?b] =>
      let H := fresh in assert (H : (a <? b) = true) by (apply Z.ltb_lt; lia); rewrite H; clear H
  end.

Ltac ltb_false := match goal with
  | |- context [?a <? ?b] =>
      let H := fresh in assert (H : (a <? b) = false) by (apply Z.ltb_ge; lia); rewrite H; clear H
  end.

(** ** Characters *)

Lemma isdigit_range (c : ascii) :
  isdigit c = true <-> 48 <= Z.of_nat (nat_of_ascii c) <= 57.
Proof. unfold isdigit; cbv zeta; rewrite andb_true_iff, !Z.leb_le; tauto. Qed.

Lemma isdigit_digit_of (c : ascii) : isdigit c = true -> 0 <= digit_of c <= 9.
Proof. rewrite isdigit_range; unfold digit_of; lia. Qed.

Lemma isdigit_not_space (c : ascii) : isdigit c = true -> isspace c = false.
Proof.
  rewrite isdigit_range; unfold isspace; cbv zeta; intros H.
  apply orb_false_iff; split.
  - apply Z.eqb_neq; lia.
  - apply andb_false_iff; right; apply Z.leb_gt; lia.
Qed.

Lemma isdigit_not_sign (c : ascii) : isdigit c = true -> is_sign_char c = false.
Proof.
  unfold is_sign_char; intros H.
  destruct (Ascii.eqb_spec c "-") as [->|_]; [discriminate H|].
  destruct (Ascii.eqb_spec c "+") as [->|_]; [discriminate H|reflexivity].
Qed.

Lemma sign_not_space (c : ascii) : is_sign_char c = true -> isspace c = false.
Proof.
  unfold is_sign_char; intros H.
  destruct (Ascii.eqb_spec c "-") as [E|_]; [subst c; reflexivity|].
  destruct (Ascii.eqb_spec c "+") as [E|_]; [subst c; reflexivity|discriminate H].
Qed.

Lemma digit_char_of (d : Z) :
  0 <= d <= 9 -> isdigit (digit_char d) = true /\ digit_of (digit_char d) = d.
Proof.
  intros H; unfold digit_char, digit_of.
  assert (E : nat_of_ascii (ascii_of_nat (Z.to_nat (48 + d))) = Z.to_nat (48 + d))
    by (apply nat_ascii_embedding; lia).
  rewrite isdigit_range, E; lia.
Qed.

(** ** The scanner of stoull *)

Lemma skip_spaces_app (ws r : string) :
  all_spaces ws = true -> starts_with isspace r = false ->
  skip_spaces (ws ++ r) = r.
Proof.
  induction ws as [|c ws IH]; simpl; intros Hw Hr.
  - destruct r as [|c r]; simpl in *; [reflexivity|now rewrite Hr].
  - apply andb_true_iff in Hw as [Hc Hw]; rewrite Hc; auto.
Qed.

Lemma skip_spaces_split (s : string) :
  exists ws, s = (ws ++ skip_spaces s)%string /\
             all_spaces ws = true /\
             starts_with isspace (skip_spaces s) = false.
Proof.
  induction s as [|c s (ws & E & Hw & Hr)]; simpl.
  - exists EmptyString; auto.
  - destruct (isspace c) eqn:Hc.
    + exists (String c ws); simpl; rewrite Hc, Hw, <- E; auto.
    + exists EmptyString; simpl; auto.
Qed.

Lemma read_digits_app (ds rest : string) (seen : bool) (acc : Z) :
  all_digits ds = true -> starts_with isdigit rest = false ->
  read_digits (ds ++ rest) seen acc =
  (match ds with EmptyString => seen | String _ _ => true end,
   acc * 10 ^ Z.of_nat (String.length ds) + decimal_value ds).
Proof.
  revert seen acc; induction ds as [|c ds IH]; simpl String.length; intros seen acc Hd Hr.
  - simpl; destruct rest as [|c rest]; simpl in *;
      [|rewrite Hr]; f_equal; lia.
  - simpl in Hd; apply andb_true_iff in Hd as [Hc Hd].
    simpl append; simpl read_digits; rewrite Hc, IH by assumption.
    simpl decimal_value; rewrite Nat2Z.inj_succ, Z.pow_succ_r by lia.
    destruct ds; f_equal; ring.
Qed.

Lemma read_digits_split (s : string) :
  exists ds rest, s = (ds ++ rest)%string /\
                  all_digits ds = true /\ starts_with isdigit rest = false.
Proof.
  induction s as [|c s (ds & rest & E & Hd & Hr)].
  - exists EmptyString, EmptyString; auto.
  - destruct (isdigit c) eqn:Hc.
    + exists (String c ds), rest; simpl; rewrite Hc, Hd, <- E; auto.
    + exists EmptyString, (String c s); simpl; auto.
Qed.

Lemma read_sign_text (g : sign) (r : string) :
  (g = no_sign -> starts_with is_sign_char r = false) ->
  read_sign (sign_text g ++ r) = (is_minus g, r).
Proof.
  destruct g; simpl; intros H; try reflexivity.
  destruct r as [|c r]; [reflexivity|].
  specialize (H eq_refl); simpl in H; unfold is_sign_char in H.
  apply orb_false_iff in H as [Hm Hp]; simpl; now rewrite Hm, Hp.
Qed.

Lemma valid_decimal_head (ds : string) :
  valid_decimal ds ->
  exists c ds', ds = String c ds' /\ isdigit c = true /\ all_digits ds' = true.
Proof.
  intros [Hne Hd]; destruct ds as [|c ds]; [congruence|].
  simpl in Hd; apply andb_true_iff in Hd as [Hc Hd]; eauto.
Qed.

(** A numeric token is read whole: the outcome depends on its digits and
    its sign only. *)
Lemma stoull_token (s ws : string) (g : sign) (ds rest : string) :
  numeric_token s ws g ds rest ->
  stoull s =
  if ULLONG_MAX <? decimal_value ds then throw out_of_range
  else ret (if is_minus g then to_uint64 (- decimal_value ds) else decimal_value ds).
Proof.
  intros (E & Hw & Hv & Hr); subst s.
  destruct (valid_decimal_head ds Hv) as (c & ds' & -> & Hc & Hd').
  unfold stoull.
  rewrite skip_spaces_app; [|assumption|].
  - rewrite read_sign_text.
    + rewrite read_digits_app; [|simpl; now rewrite Hc|assumption].
      simpl negb; cbv iota; rewrite Z.mul_0_l, Z.add_0_l; reflexivity.
    + intros _; simpl; now apply isdigit_not_sign.
  - destruct g; simpl; try reflexivity; now apply isdigit_not_space.
Qed.

(** Without a numeric token, [stoull] throws [std::invalid_argument]. *)
Lemma stoull_no_token (s : string) :
  no_numeric_token s -> stoull s = throw invalid_argument.
Proof.
  intros (ws & g & rest & E & Hw & Hr & Hg); subst s.
  unfold stoull.
  rewrite skip_spaces_app; [|assumption|].
  - rewrite read_sign_text by (intros Eg; now apply Hg).
    rewrite (read_digits_app EmptyString rest) by auto; reflexivity.
  - destruct g; simpl; try reflexivity; now apply Hg.
Qed.

(** Every text either has a numeric token or has none. *)
Lemma token_cases (s : string) :
  no_numeric_token s \/ exists ws g ds rest, numeric_token s ws g ds rest.
Proof.
  destruct (skip_spaces_split s) as (ws & E & Hw & Hs).
  assert (K : forall g body,
             skip_spaces s = (sign_text g ++ body)%string ->
             (g = no_sign -> starts_with is_sign_char body = false) ->
             no_numeric_token s \/ exists ws g ds rest, numeric_token s ws g ds rest).
  { intros g body Eb Hg.
    destruct (read_digits_split body) as (ds & rest & Ed & Hd & Hr).
    destruct ds as [|c ds].
    - left; exists ws, g, rest; simpl in Ed; subst body.
      rewrite E at 1; rewrite Eb; repeat split; auto.
      subst g; simpl in Eb; now rewrite <- Eb.
    - right; exists ws, g, (String c ds), rest; subst body.
      rewrite E at 1; rewrite Eb; repeat split; auto; discriminate. }
  destruct (skip_spaces s) as [|c r] eqn:Er.
  - apply (K no_sign EmptyString); auto.
  - destruct (Ascii.eqb_spec c "-") as [Em|Nm].
    + subst c; apply (K minus_sign r); [reflexivity|discriminate].
    + destruct (Ascii.eqb_spec c "+") as [Ep|Np].
      * subst c; apply (K plus_sign r); [reflexivity|discriminate].
      * apply (K no_sign (String c r)); [reflexivity|].
        intros _; simpl; unfold is_sign_char.
        apply Ascii.eqb_neq in Nm, Np; now rewrite Nm, Np.
Qed.

(** ** Construction and assignment from text *)

Lemma from_string_stoull (s : string) :
  Snowflake.from_string s =
  ret (Build_snowflake (match stoull s with inr v => v | inl _ => 0 end)).
Proof. unfold Snowflake.from_string; destruct (stoull s); reflexivity. Qed.

Lemma assign_string_from_string (self : snowflake) (s : string) :
  Snowflake.assign_string self s = Snowflake.from_string s.
Proof. reflexivity. Qed.

Lemma decimal_value_bounds (ds : string) :
  all_digits ds = true ->
  0 <= decimal_value ds < 10 ^ Z.of_nat (String.length ds).
Proof.
  induction ds as [|c ds IH]; simpl String.length; simpl decimal_value; intros Hd.
  - simpl; lia.
  - simpl in Hd; apply andb_true_iff in Hd as [Hc Hd].
    specialize (IH Hd); apply isdigit_digit_of in Hc.
    rewrite Nat2Z.inj_succ, Z.pow_succ_r by lia; nia.
Qed.

Lemma stoull_uint64 (s : string) (v : Z) : stoull s = inr v -> is_uint64 v.
Proof.
  destruct (token_cases s) as [Hn|(ws & g & ds & rest & Ht)].
  - rewrite (stoull_no_token s Hn); discriminate.
  - rewrite (stoull_token _ _ _ _ _ Ht).
    destruct Ht as (_ & _ & [_ Hd] & _).
    pose proof (decimal_value_bounds ds Hd) as Hb.
    destruct (Z.ltb_spec ULLONG_MAX (decimal_value ds)) as [Hlt|Hle]; [discriminate|].
    intros E; injection E as <-.
    unfold is_uint64, UINT64_MOD, ULLONG_MAX in *.
    destruct (is_minus g); [apply Z.mod_pos_bound|]; lia.
Qed.

Lemma from_string_valid_decimal (s : string) :
  valid_decimal s -> decimal_value s <= ULLONG_MAX ->
  Snowflake.from_string s = ret (Build_snowflake (decimal_value s)).
Proof.
  intros Hv Hle.
  assert (Ht : numeric_token s EmptyString no_sign s EmptyString).
  { repeat split; try apply Hv.
    simpl; clear; induction s; simpl; congruence. }
  rewrite from_string_stoull, (stoull_token _ _ _ _ _ Ht).
  apply Z.ltb_ge in Hle; now rewrite Hle.
Qed.

(** C1, as stated, fails: ["123abc"] contains non-digit characters, yet
    construction and assignment from it store 123, not the empty
    identifier. *)
Lemma C1_non_digit_text_not_empty :
  has_non_digit "123abc" = true /\
  Snowflake.from_string "123abc" = ret (Build_snowflake 123) /\
  Snowflake.assign_string Snowflake.default "123abc" = ret (Build_snowflake 123) /\
  Snowflake.empty (Build_snowflake 123) = false.
Proof. repeat split. Qed.

(** C1 (amended): construction and assignment from text never throw,
    whatever the text, and store a 64-bit value; for every text that is empty,
    has no digit after its leading white space and optional sign, or whose
    digit run has a magnitude above 2^64-1, they store the empty identifier
    (value 0). *)
Theorem C1_text_fallback_is_silent (s : string) (self : snowflake) :
  (exists sf, Snowflake.from_string s = ret sf /\
              Snowflake.assign_string self s = ret sf /\
              is_uint64 (value sf)) /\
  (s = EmptyString \/ no_numeric_token s \/
   (exists ws g ds rest, numeric_token s ws g ds rest /\
                         ULLONG_MAX < decimal_value ds) ->
   Snowflake.from_string s = ret (Build_snowflake 0) /\
   Snowflake.assign_string self s = ret (Build_snowflake 0) /\
   Snowflake.empty (Build_snowflake 0) = true).
Proof.
  rewrite assign_string_from_string, from_string_stoull; split.
  - eexists; repeat split.
    + destruct (stoull s) as [e|v] eqn:E; simpl; [lia|].
      now apply (stoull_uint64 s).
    + destruct (stoull s) as [e|v] eqn:E; simpl; [reflexivity|].
      now apply (stoull_uint64 s).
  - intros [->|[Hn|(ws & g & ds & rest & Ht & Hbig)]].
    + repeat split.
    + rewrite (stoull_no_token s Hn); repeat split.
    + rewrite (stoull_token _ _ _ _ _ Ht).
      apply Z.ltb_lt in Hbig; rewrite Hbig; repeat split.
Qed.

Lemma C1_text_fallback_is_silent_witness :
  Snowflake.from_string "18446744073709551616" = ret (Build_snowflake 0) /\
  Snowflake.assign_string (Build_snowflake 7) "18446744073709551616"
  = ret (Build_snowflake 0) /\
  Snowflake.empty (Build_snowflake 0) = true.
Proof.
  apply (proj2 (C1_text_fallback_is_silent "18446744073709551616" (Build_snowflake 7))).
  right; right.
  exists EmptyString, no_sign, "18446744073709551616"%string, EmptyString.
  split; [|vm_compute; reflexivity].
  repeat split; discriminate.
Defined.

(** C2: construction from a valid decimal text that stands for [n <= 2^64-1]
    stores [n]; construction from a 64-bit integer stores it verbatim (the
    typed form included); in each case [empty()] holds exactly when the stored
    value is 0. *)
Theorem C2_construction_stores_value :
  (forall s : string,
      valid_decimal s -> decimal_value s <= ULLONG_MAX ->
      exists sf, Snowflake.from_string s = ret sf /\
                 Snowflake.to_integer sf = decimal_value s /\
                 Snowflake.empty sf = (decimal_value s =? 0)) /\
  (forall n : Z,
      is_uint64 n ->
      Snowflake.to_integer (Snowflake.from_uint64 n) = n /\
      Snowflake.empty (Snowflake.from_uint64 n) = (n =? 0) /\
      forall T, value (Typed.from_integral T n) = n).
Proof.
  split.
  - intros s Hv Hle.
    exists (Build_snowflake (decimal_value s)).
    rewrite (from_string_valid_decimal s Hv Hle); repeat split.
  - intros n Hn; repeat split.
    intros T; unfold Typed.from_integral, to_uint64; simpl.
    apply Z.mod_small, Hn.
Qed.

Lemma C2_construction_stores_value_witness :
  (exists sf, Snowflake.from_string "18446744073709551615" = ret sf /\
              Snowflake.to_integer sf = decimal_value "18446744073709551615" /\
              Snowflake.empty sf = (decimal_value "18446744073709551615" =? 0)) /\
  Snowflake.to_integer (Snowflake.from_uint64 175928847299117063)
  = 175928847299117063.
Proof.
  split.
  - apply (proj1 C2_construction_stores_value "18446744073709551615"%string).
    + split; [discriminate|reflexivity].
    + vm_compute; discriminate.
  - apply (proj2 C2_construction_stores_value 175928847299117063).
    unfold is_uint64, UINT64_MOD; lia.
Defined.

(** C10: when the text starts with a numeric token whose magnitude fits 64
    bits, construction and assignment store that magnitude (negated modulo
    2^64 after a minus sign), whatever follows the digit run; the handler
    that stores 0 runs only when the text has no numeric token or the
    magnitude is out of range.  So ["123abc"] stores 123 and ["-1"] stores
    2^64-1. *)
Theorem C10_lenient_text_parse :
  (forall (s ws : string) (g : sign) (ds rest : string) (self : snowflake),
      numeric_token s ws g ds rest -> decimal_value ds <= ULLONG_MAX ->
      let stored := if is_minus g then to_uint64 (- decimal_value ds)
                    else decimal_value ds in
      Snowflake.from_string s = ret (Build_snowflake stored) /\
      Snowflake.assign_string self s = ret (Build_snowflake stored)) /\
  (forall (s : string) (e : exception),
      stoull s = throw e ->
      no_numeric_token s \/
      exists ws g ds rest, numeric_token s ws g ds rest /\
                           ULLONG_MAX < decimal_value ds) /\
  (has_non_digit "123abc" = true /\
   Snowflake.from_string "123abc" = ret (Build_snowflake 123)) /\
  (has_non_digit "-1" = true /\
   Snowflake.from_string "-1" = ret (Build_snowflake (2 ^ 64 - 1))).
Proof.
  split; [|split; [|split; split; reflexivity]].
  - intros s ws g ds rest self Ht Hle stored.
    rewrite assign_string_from_string, from_string_stoull.
    rewrite (stoull_token _ _ _ _ _ Ht).
    apply Z.ltb_ge in Hle; rewrite Hle; split; reflexivity.
  - intros s e He.
    destruct (token_cases s) as [Hn|(ws & g & ds & rest & Ht)]; [now left|right].
    exists ws, g, ds, rest; split; [assumption|].
    rewrite (stoull_token _ _ _ _ _ Ht) in He.
    destruct (Z.ltb_spec ULLONG_MAX (decimal_value ds)); [assumption|discriminate].
Qed.

Lemma C10_lenient_text_parse_witness :
  Snowflake.from_string "  -42 is the answer"
  = ret (Build_snowflake (to_uint64 (- decimal_value "42"))) /\
  Snowflake.assign_string Snowflake.default "  -42 is the answer"
  = ret (Build_snowflake (to_uint64 (- decimal_value "42"))).
Proof.
  apply (proj1 C10_lenient_text_parse "  -42 is the answer"%string
               "  "%string minus_sign "42"%string " is the answer"%string
               Snowflake.default).
  - repeat split; discriminate.
  - vm_compute; discriminate.
Defined.

(** ** Decimal rendering *)

Lemma all_digits_app (a b : string) :
  all_digits (a ++ b) = all_digits a && all_digits b.
Proof.
  induction a as [|c a IH]; simpl; [reflexivity|].
  now rewrite IH, andb_assoc.
Qed.

Lemma length_app (a b : string) :
  String.length (a ++ b) = (String.length a + String.length b)%nat.
Proof. induction a as [|c a IH]; simpl; [reflexivity|now rewrite IH]. Qed.

Lemma decimal_value_app (a b : string) :
  decimal_value (a ++ b) =
  decimal_value a * 10 ^ Z.of_nat (String.length b) + decimal_value b.
Proof.
  induction a as [|c a IH]; simpl; [reflexivity|].
  rewrite IH, length_app, Nat2Z.inj_add, Z.pow_add_r by lia; ring.
Qed.

Lemma append_cons_assoc (a : string) (c : ascii) (b : string) :
  ((a ++ String c EmptyString) ++ b)%string = (a ++ String c b)%string.
Proof. induction a as [|x a IH]; simpl; [reflexivity|now rewrite IH]. Qed.

(** With enough fuel the digit loop prepends the canonical decimal form of
    [n] to the accumulator. *)
Lemma to_chars_spec (fuel : nat) :
  forall (n : Z) (acc : string),
    fuel <> O -> 0 <= n < 10 ^ Z.of_nat fuel ->
    exists ds, to_chars fuel n acc = (ds ++ acc)%string /\
               canonical_decimal ds /\ decimal_value ds = n.
Proof.
  induction fuel as [|fuel IH]; intros n acc Hf Hn.
  - congruence.
  - simpl to_chars.
    assert (Hd : 0 <= n mod 10 <= 9) by (pose proof (Z.mod_pos_bound n 10); lia).
    destruct (digit_char_of _ Hd) as [Hc Hv].
    destruct (Z.ltb_spec n 10) as [Hlt|Hge].
    + exists (String (digit_char (n mod 10)) EmptyString).
      rewrite Z.mod_small in * by lia.
      repeat split; simpl; try discriminate.
      * now rewrite Hc.
      * destruct (Z.eq_dec n 0) as [->|Hnz]; [now left|right].
        intros E; rewrite E in Hv; vm_compute in Hv; lia.
      * rewrite Hv; lia.
    + rewrite Nat2Z.inj_succ, Z.pow_succ_r in Hn by lia.
      destruct (IH (n / 10) (String (digit_char (n mod 10)) acc))
        as (ds & E & [[Hne Hall] Hcan] & Hval).
      { intros ->; simpl in Hn; lia. }
      { split; [apply Z.div_pos; lia|apply Z.div_lt_upper_bound; lia]. }
      exists (ds ++ String (digit_char (n mod 10)) EmptyString)%string.
      rewrite E, append_cons_assoc; repeat split.
      * destruct ds; [congruence|discriminate].
      * rewrite all_digits_app, Hall; simpl; now rewrite Hc.
      * right; destruct ds as [|c ds]; [congruence|simpl].
        destruct Hcan as [E0|Hnz]; [|assumption].
        rewrite E0 in Hval; simpl in Hval.
        assert (n / 10 > 0) by (apply Z.lt_gt, Z.div_str_pos; lia).
        lia.
      * rewrite decimal_value_app, Hval; simpl; rewrite Hv.
        pose proof (Z.div_mod n 10); lia.
Qed.

Lemma to_string_spec (n : Z) :
  is_uint64 n -> canonical_decimal (to_string n) /\ decimal_value (to_string n) = n.
Proof.
  intros [H0 H1]; unfold to_string.
  destruct (to_chars_spec 20 n EmptyString) as (ds & E & Hc & Hv).
  - discriminate.
  - unfold UINT64_MOD in H1; split; [assumption|].
    eapply Z.lt_trans; [exact H1|reflexivity].
  - rewrite E.
    replace (ds ++ EmptyString)%string with ds; [now split|].
    clear; induction ds as [|c ds IH]; simpl; [reflexivity|now rewrite <- IH].
Qed.

(** C9: the JSON form of an identifier is a string value holding the
    canonical base-10 text of the stored value (digits only, no superfluous
    leading zero, positional value equal to the stored value), which reads
    back as the same identifier; for 123456789012345678 it is exactly
    ["123456789012345678"]. *)
Theorem C9_wire_form_is_decimal_text :
  (forall v : Z,
      is_uint64 v ->
      exists text,
        Snowflake.to_json (Snowflake.from_uint64 v) = json_string text /\
        canonical_decimal text /\
        decimal_value text = v /\
        Snowflake.from_string text = ret (Snowflake.from_uint64 v)) /\
  Snowflake.to_json (Snowflake.from_uint64 123456789012345678)
  = json_string "123456789012345678".
Proof.
  split; [|reflexivity].
  intros v Hv; exists (to_string v).
  destruct (to_string_spec v Hv) as [[Hval Hcan] Hdv].
  repeat split; try assumption; try apply Hval.
  rewrite from_string_valid_decimal, Hdv; try assumption; [reflexivity|].
  unfold is_uint64, UINT64_MOD, ULLONG_MAX in *; lia.
Qed.

Lemma C9_wire_form_is_decimal_text_witness :
  exists text,
    Snowflake.to_json (Snowflake.from_uint64 (2 ^ 64 - 1)) = json_string text /\
    canonical_decimal text /\
    decimal_value text = 2 ^ 64 - 1 /\
    Snowflake.from_string text = ret (Snowflake.from_uint64 (2 ^ 64 - 1)).
Proof.
  apply (proj1 C9_wire_form_is_decimal_text (2 ^ 64 - 1)).
  unfold is_uint64, UINT64_MOD; lia.
Defined.

(** ** Bit fields *)

Lemma testbit_above (k x n : Z) :
  0 <= k -> 0 <= x < 2 ^ k -> k <= n -> Z.testbit x n = false.
Proof.
  intros Hk Hx Hn.
  rewrite <- (Z.mod_small x (2 ^ k)) by assumption.
  apply Z.mod_pow2_bits_high; lia.
Qed.

(** The layout of a packed value, bit by bit. *)
Lemma packed_value_bits (t w p i n : Z) :
  0 <= w < 32 -> 0 <= p < 32 -> 0 <= i < 4096 -> 0 <= n ->
  Z.testbit (packed_value t w p i) n =
  if n <? 12 then Z.testbit i n
  else if n <? 17 then Z.testbit p (n - 12)
  else if n <? 22 then Z.testbit w (n - 17)
  else (n <? 64) && Z.testbit t (n - 22).
Proof.
  intros Hw Hp Hi Hn; unfold packed_value, to_uint64.
  rewrite !Z.lor_spec, Z.testbit_mod_pow2, !Z.shiftl_spec by lia.
  destruct (Z.ltb_spec n 12).
  { rewrite (Z.testbit_neg_r t), (Z.testbit_neg_r w), (Z.testbit_neg_r p) by lia.
    now rewrite andb_false_r. }
  rewrite (testbit_above 12 i n), orb_false_r by lia.
  destruct (Z.ltb_spec n 17).
  { rewrite (Z.testbit_neg_r t), (Z.testbit_neg_r w) by lia.
    now rewrite andb_false_r. }
  rewrite (testbit_above 5 p (n - 12)), orb_false_r by lia.
  destruct (Z.ltb_spec n 22).
  { rewrite (Z.testbit_neg_r t) by lia; now rewrite andb_false_r. }
  now rewrite (testbit_above 5 w (n - 17)), orb_false_r by lia.
Qed.

Lemma packed_value_uint64 (t w p i : Z) :
  0 <= w < 32 -> 0 <= p < 32 -> 0 <= i < 4096 ->
  is_uint64 (packed_value t w p i).
Proof.
  intros Hw Hp Hi.
  assert (E : packed_value t w p i = packed_value t w p i mod 2 ^ 64).
  { apply Z.bits_inj'; intros n Hn.
    rewrite Z.testbit_mod_pow2, packed_value_bits by lia.
    destruct (Z.ltb_spec n 64) as [Hlt|Hge]; [reflexivity|].
    repeat ltb_false; reflexivity. }
  rewrite E; apply Z.mod_pos_bound; reflexivity.
Qed.

(** C3: the identifier whose raw value packs [t], [w < 32], [p < 32] and
    [i < 4096] decodes to worker id [w], process id [p] and increment [i]. *)
Theorem C3_decoding_round_trip (t w p i : Z) :
  0 <= w < 32 -> 0 <= p < 32 -> 0 <= i < 4096 ->
  let s := Snowflake.from_uint64 (packed_value t w p i) in
  is_uint64 (value s) /\
  Snowflake.get_worker_id s = w /\
  Snowflake.get_process_id s = p /\
  Snowflake.get_increment s = i.
Proof.
  intros Hw Hp Hi s; subst s.
  unfold Snowflake.get_worker_id, Snowflake.get_process_id, Snowflake.get_increment,
    to_uint8, to_uint16; simpl value.
  split; [now apply packed_value_uint64|].
  split; [|split]; apply Z.bits_inj'; intros n Hn.
  - rewrite Z.testbit_mod_pow2, Z.shiftr_spec, Z.land_spec, packed_value_bits by lia.
    change 0x3E0000 with (Z.shiftl (Z.ones 5) 17).
    rewrite Z.shiftl_spec, Z.testbit_ones_nonneg by lia.
    replace (n + 17 - 17) with n by lia.
    destruct (Z.ltb_spec n 5) as [Hlt|Hge].
    + repeat ltb_false; repeat ltb_true; simpl; now rewrite andb_true_r.
    + now rewrite (testbit_above 5 w n), andb_false_r, andb_false_r by lia.
  - rewrite Z.testbit_mod_pow2, Z.shiftr_spec, Z.land_spec, packed_value_bits by lia.
    change 0x1F000 with (Z.shiftl (Z.ones 5) 12).
    rewrite Z.shiftl_spec, Z.testbit_ones_nonneg by lia.
    replace (n + 12 - 12) with n by lia.
    destruct (Z.ltb_spec n 5) as [Hlt|Hge].
    + repeat ltb_false; repeat ltb_true; simpl; now rewrite andb_true_r.
    + now rewrite (testbit_above 5 p n), andb_false_r, andb_false_r by lia.
  - rewrite Z.testbit_mod_pow2, Z.land_spec, packed_value_bits by lia.
    change 0xFFF with (Z.ones 12).
    rewrite Z.testbit_ones_nonneg by lia.
    destruct (Z.ltb_spec n 12) as [Hlt|Hge].
    + ltb_true; simpl; now rewrite andb_true_r.
    + now rewrite (testbit_above 12 i n), andb_false_r, andb_false_r by lia.
Qed.

Lemma C3_decoding_round_trip_witness :
  let s := Snowflake.from_uint64 (packed_value 41944705796 1 0 7) in
  is_uint64 (value s) /\
  Snowflake.get_worker_id s = 1 /\
  Snowflake.get_process_id s = 0 /\
  Snowflake.get_increment s = 7.
Proof. apply (C3_decoding_round_trip 41944705796 1 0 7); lia. Defined.

(** ** Equality, ordering and hashing *)

(** C5: [==] between identifiers, and between an identifier and a raw
    integer, is equality of the raw values; equal identifiers have equal
    hashes, in the untyped and in every typed form. *)
Theorem C5_equality_and_hash (std_hash_uint64 : Z -> Z) (a b : snowflake) :
  Snowflake.op_eq a b = (Snowflake.to_integer a =? Snowflake.to_integer b) /\
  (Snowflake.op_eq a b = true <-> Snowflake.to_integer a = Snowflake.to_integer b) /\
  (forall n : Z, Snowflake.op_eq_uint64 a n = true <-> Snowflake.to_integer a = n) /\
  (Snowflake.op_eq a b = true -> hash std_hash_uint64 a = hash std_hash_uint64 b) /\
  (forall (T : category) (x y : snowflake_t T),
      Snowflake.op_eq (to_base x) (to_base y) = true ->
      hash std_hash_uint64 x = hash std_hash_uint64 y).
Proof.
  unfold Snowflake.op_eq, Snowflake.op_eq_uint64, Snowflake.to_integer, hash.
  split; [apply Z.eqb_sym|].
  split; [rewrite Z.eqb_eq; split; congruence|].
  split; [intros n; rewrite Z.eqb_eq; split; congruence|].
  split; [rewrite Z.eqb_eq; congruence|].
  intros T x y; simpl; rewrite Z.eqb_eq; congruence.
Qed.

Lemma C5_equality_and_hash_witness :
  hash (T := void) (fun z => z mod 1024) (Snowflake.from_uint64 175928847299117063)
  = hash (T := void) (fun z => z mod 1024)
      (Build_snowflake (decimal_value "175928847299117063")).
Proof.
  destruct (C5_equality_and_hash (fun z => z mod 1024)
              (Snowflake.from_uint64 175928847299117063)
              (Build_snowflake (decimal_value "175928847299117063")))
    as (_ & _ & _ & Hhash & _).
  apply Hhash; vm_compute; reflexivity.
Defined.

(** C6: [<] on identifiers is [<] on the raw values, hence a strict total
    order: irreflexive, transitive, and any two identifiers are ordered one
    way or the other unless their raw values are equal. *)
Theorem C6_order_is_raw_order (a b c : snowflake) :
  Snowflake.op_lt a b = (Snowflake.to_integer a <? Snowflake.to_integer b) /\
  (Snowflake.op_lt a b = true <-> Snowflake.to_integer a < Snowflake.to_integer b) /\
  Snowflake.op_lt a a = false /\
  (Snowflake.op_lt a b = true -> Snowflake.op_lt b c = true ->
   Snowflake.op_lt a c = true) /\
  (Snowflake.op_lt a b = true -> Snowflake.op_lt b a = false) /\
  (Snowflake.op_lt a b = true \/ Snowflake.op_eq a b = true \/
   Snowflake.op_lt b a = true) /\
  (Snowflake.op_lt a b = false -> Snowflake.op_lt b a = false ->
   Snowflake.op_eq a b = true).
Proof.
  unfold Snowflake.op_lt, Snowflake.op_eq, Snowflake.to_integer.
  rewrite !Z.ltb_lt, !Z.ltb_ge, !Z.eqb_eq; repeat split; lia.
Qed.

Lemma C6_order_is_raw_order_witness :
  Snowflake.op_lt (Snowflake.from_uint64 1) (Snowflake.from_uint64 3) = true.
Proof.
  destruct (C6_order_is_raw_order (Snowflake.from_uint64 1) (Snowflake.from_uint64 2)
              (Snowflake.from_uint64 3)) as (_ & _ & _ & Htrans & _).
  apply Htrans; reflexivity.
Defined.

(** ** Identified entities *)

(** C7: two entities of one kind are equal exactly when their ids hold the
    same raw value, whatever else they carry: entities made from the same
    identifier integer are equal for any two states; [!=] is the negation of
    [==]. *)
Theorem C7_entity_equality_is_id_equality
        (T : category) (State : Type) (x y : entity T State) :
  (Managed.op_eq (as_managed x) (as_managed y) = true <->
   value (id (as_managed x)) = value (id (as_managed y))) /\
  Managed.op_ne (as_managed x) (as_managed y)
  = negb (Managed.op_eq (as_managed x) (as_managed y)) /\
  (forall n : Z,
      Managed.op_eq
        (as_managed (Build_entity (Managed.make (Typed.from_integral T n)) (state x)))
        (as_managed (Build_entity (Managed.make (Typed.from_integral T n)) (state y)))
      = true) /\
  (id (as_managed x) = id (as_managed y) ->
   Managed.op_eq (as_managed x) (as_managed y) = true /\
   Managed.op_ne (as_managed x) (as_managed y) = false).
Proof.
  unfold Managed.op_eq, Managed.op_ne, Snowflake.op_eq; simpl.
  split; [|split; [reflexivity|split]].
  - rewrite Z.eqb_eq; split; congruence.
  - intros n; apply Z.eqb_refl.
  - intros ->; now rewrite Z.eqb_refl.
Qed.

Lemma C7_entity_equality_is_id_equality_witness :
  let stale := Build_entity (Managed.make (Typed.from_integral guild 42)) "stale"%string in
  let fresh := Build_entity (Managed.make (Typed.from_integral guild 42)) "fresh"%string in
  Managed.op_eq (as_managed stale) (as_managed fresh) = true /\
  Managed.op_ne (as_managed stale) (as_managed fresh) = false.
Proof.
  intros stale fresh.
  destruct (C7_entity_equality_is_id_equality guild string stale fresh)
    as (_ & _ & _ & Hid).
  apply Hid; reflexivity.
Defined.

(** ** Conversions between categories *)

Lemma is_same_eq (a b : category) : is_same a b = true <-> a = b.
Proof.
  destruct a, b; simpl; try (split; [discriminate|congruence]);
    try (split; reflexivity).
  rewrite String.eqb_eq; split; congruence.
Qed.

Lemma is_same_neq (a b : category) : a <> b -> is_same a b = false.
Proof.
  intros H; destruct (is_same a b) eqn:E; [|reflexivity].
  now apply is_same_eq in E.
Qed.

(** The constraint of the converting constructor, spelled out. *)
Lemma converting_enabled_iff (T U : category) :
  Typed.converting_enabled T U = true <-> U = void \/ (U = guild /\ T = role).
Proof.
  unfold Typed.converting_enabled.
  rewrite orb_true_iff, andb_true_iff, !is_same_eq; tauto.
Qed.

(** C8, as stated, fails: a guild identifier converts to the untyped form
    (through its base class), a cross-category conversion that is neither
    "from untyped" nor "guild to role". *)
Lemma C8_tagged_to_untyped_is_offered :
  void <> guild /\
  Typed.convert void guild (Build_snowflake 42) = Some (Build_snowflake 42) /\
  ~ (guild = void \/ (guild = guild /\ void = role)).
Proof.
  split; [discriminate|split; [reflexivity|]].
  intros [H|[_ H]]; discriminate H.
Qed.

(** C8 (amended): into a tagged category the only cross-category
    conversions offered are from the untyped category and from guild to role,
    every other tagged-to-tagged pair having no viable constructor; into the
    untyped category every identifier converts, through its base class; and
    every conversion offered preserves the raw value. *)
Theorem C8_sanctioned_conversions (T U : category) (v : snowflake_t U) :
  T <> U ->
  (T <> void ->
   (Typed.convert T U v <> None <-> U = void \/ (U = guild /\ T = role))) /\
  (T = void -> Typed.convert T U v <> None) /\
  (forall r, Typed.convert T U v = Some r -> value r = value v).
Proof.
  intros Hne.
  assert (Hconv : T <> void ->
                  Typed.convert T U v =
                  if Typed.converting_enabled T U then Some (Typed.converting v)
                  else None).
  { intros HT; unfold Typed.convert.
    rewrite (is_same_neq T U Hne); destruct T; congruence. }
  split; [|split].
  - intros HT; rewrite (Hconv HT), <- converting_enabled_iff.
    destruct (Typed.converting_enabled T U); split; congruence.
  - intros ->; discriminate.
  - intros r; destruct T; try (simpl; intros E; injection E as <-; reflexivity);
      (rewrite Hconv by discriminate;
       destruct (Typed.converting_enabled _ U); [|discriminate];
       intros E; injection E as <-; reflexivity).
Qed.

Lemma C8_sanctioned_conversions_witness :
  (role <> void ->
   (Typed.convert role guild (Build_snowflake 42) <> None <->
    guild = void \/ (guild = guild /\ role = role))) /\
  (role = void -> Typed.convert role guild (Build_snowflake 42) <> None) /\
  (forall r, Typed.convert role guild (Build_snowflake 42) = Some r ->
             value r = value (@Build_snowflake guild 42)).
Proof.
  apply (C8_sanctioned_conversions role guild (Build_snowflake 42)); discriminate.
Defined.

(** ** Binary64 arithmetic *)

Lemma digits2_pos_bounds (p : positive) :
  2 ^ (Z.pos (digits2_pos p) - 1) <= Z.pos p < 2 ^ Z.pos (digits2_pos p).
Proof.
  induction p as [p IH|p IH|]; simpl digits2_pos.
  - rewrite Pos2Z.inj_succ, Z.pow_succ_r by lia.
    replace (Z.succ (Z.pos (digits2_pos p)) - 1) with (Z.succ (Z.pos (digits2_pos p) - 1)) by lia.
    rewrite Z.pow_succ_r by lia. lia.
  - rewrite Pos2Z.inj_succ, Z.pow_succ_r by lia.
    replace (Z.succ (Z.pos (digits2_pos p)) - 1) with (Z.succ (Z.pos (digits2_pos p) - 1)) by lia.
    rewrite Z.pow_succ_r by lia. lia.
  - simpl; lia.
Qed.

Lemma digits2_pos_eq (p : positive) (n : Z) :
  2 ^ (n - 1) <= Z.pos p < 2 ^ n -> Z.pos (digits2_pos p) = n.
Proof.
  intros H. pose proof (digits2_pos_bounds p) as B.
  set (d := Z.pos (digits2_pos p)) in *.
  assert (0 < n).
  { destruct (Z.ltb_spec 0 n); [assumption|].
    rewrite (Z.pow_neg_r 2 (n - 1)) in H by lia.
    destruct (Z.eq_dec n 0) as [->|]; [simpl in H; lia|].
    rewrite (Z.pow_neg_r 2 n) in H by lia. lia. }
  destruct (Z.lt_trichotomy d n) as [L|[E|G]]; [|assumption|].
  - assert (2 ^ d <= 2 ^ (n - 1)) by (apply Z.pow_le_mono_r; lia). lia.
  - assert (2 ^ n <= 2 ^ (d - 1)) by (apply Z.pow_le_mono_r; lia). lia.
Qed.

Lemma pos_iter_xO (p k : positive) :
  Z.pos (Pos.iter xO p k) = Z.pos p * 2 ^ Z.pos k.
Proof.
  induction k as [|k IH] using Pos.peano_ind.
  - change (Z.pos p~0 = Z.pos p * 2); lia.
  - rewrite Pos.iter_succ, Pos2Z.inj_xO, IH, Pos2Z.inj_succ, Z.pow_succ_r by lia. ring.
Qed.

Lemma shr_record_of_loc_m (m : Z) (l : location) : shr_m (shr_record_of_loc m l) = m.
Proof. destruct l as [|[]]; reflexivity. Qed.

Lemma loc_of_shr_record_of_loc (m : Z) (l : location) :
  loc_of_shr_record (shr_record_of_loc m l) = l.
Proof. destruct l as [|[]]; reflexivity. Qed.

Lemma fexp_normal (e : Z) : -1021 <= e -> fexp 53 1024 e = e - 53.
Proof. unfold fexp, emin; lia. Qed.

Lemma shr_fexp_53 (m : positive) (e : Z) (l : location) :
  2 ^ 52 <= Z.pos m < 2 ^ 53 -> -1074 <= e ->
  shr_fexp 53 1024 (Z.pos m) e l = (shr_record_of_loc (Z.pos m) l, e).
Proof.
  intros Hm He; unfold shr_fexp, Zdigits2.
  rewrite (digits2_pos_eq m 53), fexp_normal by (assumption || lia).
  replace (53 + e - 53 - e) with 0 by lia; reflexivity.
Qed.

Lemma shr_fexp_54 (m : positive) (e : Z) (l : location) :
  2 ^ 53 <= Z.pos m < 2 ^ 54 -> -1074 <= e ->
  shr_fexp 53 1024 (Z.pos m) e l = (shr_1 (shr_record_of_loc (Z.pos m) l), e + 1).
Proof.
  intros Hm He; unfold shr_fexp, Zdigits2.
  rewrite (digits2_pos_eq m 54), fexp_normal by (assumption || lia).
  replace (54 + e - 53 - e) with 1 by lia; reflexivity.
Qed.

Lemma round_nearest_even_pos (q : positive) (l : location) :
  exists q', round_nearest_even (Z.pos q) l = Z.pos q' /\
             Z.pos q <= Z.pos q' <= Z.pos q + 1.
Proof.
  destruct l as [|[]]; unfold round_nearest_even.
  - exists q; lia.
  - destruct (Z.even (Z.pos q)); [exists q|exists (q + 1)%positive]; lia.
  - exists q; lia.
  - exists (q + 1)%positive; lia.
Qed.

(** The last normalisation step of [binary_round_aux], on a mantissa of 53
    bits or on [2^53]. *)
Lemma shr_fexp_exact (q : positive) (e : Z) :
  2 ^ 52 <= Z.pos q <= 2 ^ 53 -> -1074 <= e ->
  exists m' e',
    shr_fexp 53 1024 (Z.pos q) e loc_Exact = (shr_record_of_loc (Z.pos m') loc_Exact, e') /\
    (e' = e /\ m' = q \/ e' = e + 1 /\ Z.pos m' = 2 ^ 52 /\ Z.pos q = 2 ^ 53).
Proof.
  intros Hq He.
  destruct (Z.ltb_spec (Z.pos q) (2 ^ 53)) as [Hlt|Hge].
  - exists q, e; rewrite shr_fexp_53 by lia; auto.
  - assert (E : q = 9007199254740992%positive) by lia; subst q.
    exists 4503599627370496%positive, (e + 1); rewrite shr_fexp_54 by lia.
    split; [reflexivity|right; repeat split; reflexivity].
Qed.

Lemma binary_round_aux_normal (q e : Z) (l : location) :
  2 ^ 52 <= q < 2 ^ 54 -> -1074 <= e <= 900 ->
  exists m' e',
    binary_round_aux 53 1024 false q e l = S754_finite false m' e' /\
    (e' = e /\ q <= Z.pos m' <= q + 1 \/
     e' = e + 1 /\ q - 1 <= 2 * Z.pos m' <= q + 2 \/
     e' = e + 2 /\ q + 1 <= 4 * Z.pos m' <= q + 2).
Proof.
  intros Hq He; destruct q as [|q|q]; try lia.
  unfold binary_round_aux.
  destruct (Z.ltb_spec (Z.pos q) (2 ^ 53)) as [Hlt|Hge].
  - rewrite shr_fexp_53 by lia.
    rewrite shr_record_of_loc_m, loc_of_shr_record_of_loc.
    destruct (round_nearest_even_pos q l) as (q' & -> & Hq').
    destruct (shr_fexp_exact q' e) as (m' & e' & -> & Hm'); [lia|lia|].
    exists m', e'; simpl shr_m.
    replace (e' <=? 1024 - 53) with true by (symmetry; apply Z.leb_le; lia).
    split; [reflexivity|].
    destruct Hm' as [[-> ->]|(-> & Hm' & Hq'')]; [left|right; left]; lia.
  - rewrite shr_fexp_54 by lia.
    assert (S1 : exists p r s, shr_1 (shr_record_of_loc (Z.pos q) l)
                               = Build_shr_record (Z.pos p) r s /\
                               2 * Z.pos p <= Z.pos q <= 2 * Z.pos p + 1).
    { destruct q as [p|p|]; [| |lia];
        (exists p; destruct l as [|[]]; simpl; do 2 eexists;
         (split; [reflexivity|lia])). }
    destruct S1 as (p & r & s & -> & Hp).
    simpl shr_m.
    destruct (round_nearest_even_pos p (loc_of_shr_record (Build_shr_record (Z.pos p) r s)))
      as (q' & -> & Hq').
    destruct (shr_fexp_exact q' (e + 1)) as (m' & e' & -> & Hm'); [lia|lia|].
    exists m', e'; simpl shr_m.
    replace (e' <=? 1024 - 53) with true by (symmetry; apply Z.leb_le; lia).
    split; [reflexivity|right].
    destruct Hm' as [[-> ->]|(-> & Hm' & Hq'')]; [left|right]; lia.
Qed.

Lemma binary_round_aux_exact (m : positive) (e : Z) :
  2 ^ 52 <= Z.pos m < 2 ^ 53 -> -1074 <= e <= 971 ->
  binary_round_aux 53 1024 false (Z.pos m) e loc_Exact = S754_finite false m e.
Proof.
  intros Hm He; unfold binary_round_aux.
  rewrite shr_fexp_53 by lia; simpl shr_m; simpl loc_of_shr_record.
  unfold round_nearest_even; rewrite shr_fexp_53 by lia; simpl shr_m.
  replace (e <=? 1024 - 53) with true by (symmetry; apply Z.leb_le; lia).
  reflexivity.
Qed.

(** Conversion of an integer of [53 - k] bits: the mantissa is the integer
    shifted left by [k], the exponent is [- k]; nothing is rounded. *)
Lemma double_of_uint64_normal (x : Z) (k : positive) :
  Z.pos k <= 52 -> 2 ^ (52 - Z.pos k) <= x < 2 ^ (53 - Z.pos k) ->
  exists m, double_of_uint64 x = S754_finite false m (Z.neg k) /\
            Z.pos m = x * 2 ^ Z.pos k.
Proof.
  intros Hk Hx.
  assert (Hpow : 2 ^ (52 - Z.pos k) * 2 ^ Z.pos k = 2 ^ 52)
    by (rewrite <- Z.pow_add_r by lia; f_equal; lia).
  assert (Hpow' : 2 ^ (53 - Z.pos k) * 2 ^ Z.pos k = 2 ^ 53)
    by (rewrite <- Z.pow_add_r by lia; f_equal; lia).
  assert (0 < 2 ^ (52 - Z.pos k)) by (apply Z.pow_pos_nonneg; lia).
  assert (0 < 2 ^ Z.pos k) by (apply Z.pow_pos_nonneg; lia).
  destruct x as [|xp|xp]; try lia.
  exists (Pos.iter xO xp k); split; [|apply pos_iter_xO].
  unfold double_of_uint64, binary_normalize, binary_round, double_prec, double_emax.
  rewrite (digits2_pos_eq xp (53 - Z.pos k))
    by (replace (53 - Z.pos k - 1) with (52 - Z.pos k) by lia; assumption).
  rewrite fexp_normal by lia.
  unfold shl_align.
  replace (53 - Z.pos k + 0 - 53 - 0) with (Z.neg k) by lia.
  replace (53 - Z.pos k + 0 - 53) with (Z.neg k) by lia.
  apply binary_round_aux_exact; [rewrite pos_iter_xO; nia|lia].
Qed.

(** Division of two normal positive doubles: the quotient of the mantissas,
    with 53 extra bits, is rounded once. *)
Lemma SFdiv_normal (m1 m2 : positive) (e1 e2 : Z) :
  2 ^ 52 <= Z.pos m1 < 2 ^ 53 -> 2 ^ 52 <= Z.pos m2 < 2 ^ 53 ->
  -1021 <= e1 - e2 ->
  exists l,
    SFdiv 53 1024 (S754_finite false m1 e1) (S754_finite false m2 e2) =
    binary_round_aux 53 1024 false (Z.pos m1 * 2 ^ 53 / Z.pos m2) (e1 - e2 - 53) l.
Proof.
  intros H1 H2 He; unfold SFdiv, SFdiv_core_binary, Zdigits2.
  rewrite (digits2_pos_eq m1 53), (digits2_pos_eq m2 53) by assumption.
  replace (53 + e1 - (53 + e2)) with (e1 - e2) by lia.
  rewrite fexp_normal by lia.
  rewrite Z.min_l by lia.
  replace (e1 - e2 - (e1 - e2 - 53)) with 53 by lia.
  rewrite Z.shiftl_mul_pow2 by lia.
  unfold Z.div.
  destruct (Z.div_eucl (Z.pos m1 * 2 ^ 53) (Z.pos m2)) as [q r].
  exists (new_location (Z.pos m2) r); reflexivity.
Qed.

Lemma milliseconds_range (v : Z) :
  is_uint64 v ->
  let x := Z.shiftr v 22 + Snowflake.first_january_2016 in
  to_uint64 x = x /\ 1420070400000 <= x < 1420070400000 + 2 ^ 42.
Proof.
  intros Hv x; subst x; unfold to_uint64, Snowflake.first_january_2016.
  unfold is_uint64, UINT64_MOD in Hv.
  rewrite Z.shiftr_div_pow2 by lia.
  assert (0 <= v / 2 ^ 22 < 2 ^ 42).
  { split; [apply Z.div_pos; lia|apply Z.div_lt_upper_bound; lia]. }
  split; [apply Z.mod_small|]; lia.
Qed.

Lemma creation_time_rounding (x : Z) (k : positive) :
  10 <= Z.pos k <= 12 ->
  2 ^ (52 - Z.pos k) <= x < 2 ^ (53 - Z.pos k) ->
  exists m e,
    double_div (double_of_uint64 x) (double_of_uint64 1000) = S754_finite false m e /\
    let q := x * 2 ^ (Z.pos k + 10) / 1000 in
    let e0 := - Z.pos k - 10 in
    (e = e0 /\ q <= Z.pos m <= q + 1 \/
     e = e0 + 1 /\ q - 1 <= 2 * Z.pos m <= q + 2 \/
     e = e0 + 2 /\ q + 1 <= 4 * Z.pos m <= q + 2).
Proof.
  intros Hk Hx.
  destruct (double_of_uint64_normal x k) as (m1 & -> & Hm1); [lia|assumption|].
  change (double_of_uint64 1000) with (S754_finite false 8796093022208000 (-43)).
  assert (Hpow : 2 ^ (52 - Z.pos k) * 2 ^ Z.pos k = 2 ^ 52)
    by (rewrite <- Z.pow_add_r by lia; f_equal; lia).
  assert (Hpow' : 2 ^ (53 - Z.pos k) * 2 ^ Z.pos k = 2 ^ 53)
    by (rewrite <- Z.pow_add_r by lia; f_equal; lia).
  assert (0 < 2 ^ Z.pos k) by (apply Z.pow_pos_nonneg; lia).
  assert (Hm1' : 2 ^ 52 <= Z.pos m1 < 2 ^ 53) by (rewrite Hm1; nia).
  unfold double_div, double_prec, double_emax.
  destruct (SFdiv_normal m1 8796093022208000 (Z.neg k) (-43)) as (l & ->);
    [assumption|lia|lia|].
  assert (Hq : Z.pos m1 * 2 ^ 53 / 8796093022208000 = x * 2 ^ (Z.pos k + 10) / 1000).
  { rewrite Hm1, Z.pow_add_r by lia.
    change 8796093022208000 with (1000 * 2 ^ 43).
    change (2 ^ 53) with (2 ^ 10 * 2 ^ 43).
    rewrite Z.mul_assoc, Z.div_mul_cancel_r by lia.
    f_equal; ring. }
  rewrite Hq.
  replace (Z.neg k - -43 - 53) with (- Z.pos k - 10) by lia.
  apply binary_round_aux_normal; [|lia].
  split.
  - apply Z.div_le_lower_bound; [lia|].
    rewrite Z.pow_add_r by lia. nia.
  - apply Z.div_lt_upper_bound; [lia|].
    rewrite Z.pow_add_r by lia. nia.
Qed.

Lemma creation_time_value (v : Z) :
  is_uint64 v ->
  let x := Z.shiftr v 22 + Snowflake.first_january_2016 in
  exists m e,
    Snowflake.get_creation_time (Snowflake.from_uint64 v) = S754_finite false m e /\
    -22 <= e <= -18 /\
    (e = -22 -> 5956206959001600 <= Z.pos m) /\
    (x - 1) * 2 ^ 22 <= 1000 * (Z.pos m * 2 ^ (e + 22)) <= (x + 1) * 2 ^ 22.
Proof.
  intros Hv x.
  destruct (milliseconds_range v Hv) as [Ex Hx]; fold x in Ex, Hx.
  unfold Snowflake.get_creation_time; simpl value; fold x; rewrite Ex.
  assert (K : forall k : positive,
             10 <= Z.pos k <= 12 ->
             2 ^ (52 - Z.pos k) <= x < 2 ^ (53 - Z.pos k) ->
             exists m e,
               double_div (double_of_uint64 x) (double_of_uint64 1000)
               = S754_finite false m e /\
               -22 <= e <= -18 /\
               (e = -22 -> 5956206959001600 <= Z.pos m) /\
               (x - 1) * 2 ^ 22 <= 1000 * (Z.pos m * 2 ^ (e + 22)) <= (x + 1) * 2 ^ 22).
  { intros k Hk Hxk.
    destruct (creation_time_rounding x k Hk Hxk) as (m & e & E & Hme).
    exists m, e; split; [exact E|].
    cbv zeta in Hme.
    assert (Ek : k = 10%positive \/ k = 11%positive \/ k = 12%positive) by lia.
    destruct Ek as [-> | [-> | ->]];
      [change (2 ^ (10 + 10)) with 1048576 in Hme
      |change (2 ^ (11 + 10)) with 2097152 in Hme
      |change (2 ^ (12 + 10)) with 4194304 in Hme];
      match type of Hme with
      | context [?a / 1000] =>
          pose proof (Z.mul_div_le a 1000 eq_refl);
          pose proof (Z.mul_succ_div_gt a 1000 eq_refl);
          generalize dependent (a / 1000); intros q
      end; intros;
      change (2 ^ 22) with 4194304;
      destruct Hme as [[-> Hm]|[[-> Hm]|[-> Hm]]]; simpl Z.pow;
      change (2 ^ (52 - 12)) with 1099511627776 in Hxk; lia. }
  destruct (Z.ltb_spec x (2 ^ 41)); [|destruct (Z.ltb_spec x (2 ^ 42))].
  - apply (K 12%positive); [lia|]. simpl Z.sub; lia.
  - apply (K 11%positive); [lia|]. simpl Z.sub; lia.
  - apply (K 10%positive); [lia|]. simpl Z.sub; lia.
Qed.

(** C4: the creation time is [((v >> 22) + 1420070400000) / 1000.0]
    computed in binary64: a finite positive double within a millisecond of the
    exact quotient, and never below the double [1420070400.0], which is the
    instant 2015-01-01T00:00:00 UTC exactly; an entity reports the creation
    time of its id;
    the identifier 175928847299117063 yields a creation time strictly after
    that instant. *)
Theorem C4_creation_time_not_before_epoch (v : Z) :
  is_uint64 v ->
  let s := Snowflake.from_uint64 v in
  let ms := Z.shiftr v 22 + Snowflake.first_january_2016 in
  double_le epoch_instant (Snowflake.get_creation_time s) = true /\
  (exists m e, Snowflake.get_creation_time s = S754_finite false m e) /\
  (ms - 1) * 2 ^ 22 <= 1000 * scaled 22 (Snowflake.get_creation_time s)
                    <= (ms + 1) * 2 ^ 22 /\
  (forall (T : category) (x : managed T),
      value (id x) = v ->
      Managed.get_creation_time x = Snowflake.get_creation_time s) /\
  scaled 22 epoch_instant = 1420070400 * 2 ^ 22 /\
  Snowflake.get_creation_time (Snowflake.from_uint64 175928847299117063)
  = S754_finite false 6132135806300586 (-22) /\
  double_lt epoch_instant
    (Snowflake.get_creation_time (Snowflake.from_uint64 175928847299117063)) = true.
Proof.
  intros Hv s ms; subst s ms.
  destruct (creation_time_value v Hv) as (m & e & E & He & Hm & Hms).
  split; [|split; [eauto|split; [rewrite E; exact Hms|split;
    [|repeat split; vm_compute; reflexivity]]]].
  - rewrite E.
    replace epoch_instant with (S754_finite false 5956206959001600 (-22))
      by (vm_compute; reflexivity).
    unfold double_le, SFleb, SFcompare.
    assert (Ee : e = -22 \/ e = -21 \/ e = -20 \/ e = -19 \/ e = -18) by lia.
    destruct Ee as [-> | [-> | [-> | [-> | ->]]]]; try reflexivity.
    simpl Z.compare; cbv iota.
    change (Pos.compare_cont Eq 5956206959001600 m)
      with (Pos.compare 5956206959001600 m).
    destruct (Pos.compare_spec 5956206959001600 m) as [Heq|Hlt|Hgt];
      try reflexivity.
    specialize (Hm eq_refl); exfalso; clear - Hm Hgt.
    apply Pos2Z.pos_lt_pos in Hgt; lia.
  - intros T x Hx; unfold Managed.get_creation_time, Snowflake.get_creation_time.
    unfold to_base, Snowflake.from_uint64; cbn [value]; now rewrite Hx.
Qed.

Lemma C4_creation_time_not_before_epoch_witness :
  double_le epoch_instant
    (Snowflake.get_creation_time (Snowflake.from_uint64 (2 ^ 64 - 1))) = true.
Proof.
  destruct (C4_creation_time_not_before_epoch (2 ^ 64 - 1)) as (Hle & _).
  - unfold is_uint64, UINT64_MOD; lia.
  - exact Hle.
Defined.

(** * Further properties of the code *)

(** ** Decoding any identifier *)

Lemma field_extract (v mask_width shift : Z) :
  0 <= shift -> 0 <= mask_width <= 8 ->
  to_uint8 (Z.shiftr (Z.land v (Z.shiftl (Z.ones mask_width) shift)) shift)
  = Z.shiftr v shift mod 2 ^ mask_width.
Proof.
  intros Hs Hw; unfold to_uint8.
  rewrite Z.shiftr_land, Z.shiftr_shiftl_l, Z.sub_diag, Z.shiftl_0_r by lia.
  rewrite Z.land_ones by lia.
  apply Z.mod_small.
  pose proof (Z.mod_pos_bound (Z.shiftr v shift) (2 ^ mask_width)) as B.
  assert (2 ^ mask_width <= 2 ^ 8) by (apply Z.pow_le_mono_r; lia).
  assert (0 < 2 ^ mask_width) by (apply Z.pow_pos_nonneg; lia).
  lia.
Qed.

(** X1: the decoders on an arbitrary identifier: each field is a slice of the raw
    value, so the worker and process ids are below 32 and the increment is
    below 4096, and the narrowing casts to [uint8_t] and [uint16_t] never
    lose a bit. *)
Theorem decoded_fields_are_slices (s : snowflake) :
  Snowflake.get_worker_id s = (value s / 2 ^ 17) mod 32 /\
  Snowflake.get_process_id s = (value s / 2 ^ 12) mod 32 /\
  Snowflake.get_increment s = value s mod 4096 /\
  0 <= Snowflake.get_worker_id s < 32 /\
  0 <= Snowflake.get_process_id s < 32 /\
  0 <= Snowflake.get_increment s < 4096.
Proof.
  assert (Ew : Snowflake.get_worker_id s = (value s / 2 ^ 17) mod 32).
  { unfold Snowflake.get_worker_id.
    change 0x3E0000 with (Z.shiftl (Z.ones 5) 17).
    rewrite field_extract, Z.shiftr_div_pow2 by lia; reflexivity. }
  assert (Ep : Snowflake.get_process_id s = (value s / 2 ^ 12) mod 32).
  { unfold Snowflake.get_process_id.
    change 0x1F000 with (Z.shiftl (Z.ones 5) 12).
    rewrite field_extract, Z.shiftr_div_pow2 by lia; reflexivity. }
  assert (Ei : Snowflake.get_increment s = value s mod 4096).
  { unfold Snowflake.get_increment, to_uint16.
    change 0xFFF with (Z.ones 12).
    rewrite Z.land_ones by lia.
    apply Z.mod_small.
    change (2 ^ 16) with 65536.
    pose proof (Z.mod_pos_bound (value s) 4096); lia. }
  rewrite Ew, Ep, Ei; repeat split; try apply Z.mod_pos_bound; reflexivity.
Qed.

(** X2: the four fields determine the identifier: the raw value is the timestamp
    field times 2^22 plus the worker id times 2^17 plus the process id times
    2^12 plus the increment, and packing the decoded fields of a 64-bit
    identifier gives the identifier back. *)
Theorem decoded_fields_rebuild_value (s : snowflake) :
  value s = timestamp_of s * 2 ^ 22 + Snowflake.get_worker_id s * 2 ^ 17
            + Snowflake.get_process_id s * 2 ^ 12 + Snowflake.get_increment s /\
  (is_uint64 (value s) ->
   packed_value (timestamp_of s) (Snowflake.get_worker_id s)
     (Snowflake.get_process_id s) (Snowflake.get_increment s) = value s).
Proof.
  destruct (decoded_fields_are_slices s) as (Ew & Ep & Ei & Bw & Bp & Bi).
  split.
  - unfold timestamp_of; rewrite Ew, Ep, Ei, Z.shiftr_div_pow2 by lia.
    change (2 ^ 22) with 4194304; change (2 ^ 17) with 131072;
      change (2 ^ 12) with 4096.
    Z.div_mod_to_equations; lia.
  - intros Hv; apply Z.bits_inj'; intros n Hn.
    rewrite packed_value_bits by assumption.
    rewrite Ew, Ep, Ei; unfold timestamp_of.
    rewrite <- !Z.shiftr_div_pow2 by lia.
    change 32 with (2 ^ 5); change 4096 with (2 ^ 12).
    rewrite !Z.testbit_mod_pow2 by lia.
    destruct (Z.ltb_spec n 12); [reflexivity|].
    destruct (Z.ltb_spec n 17);
      [rewrite Z.shiftr_spec by lia; ltb_true; simpl; f_equal; lia|].
    destruct (Z.ltb_spec n 22);
      [rewrite Z.shiftr_spec by lia; ltb_true; simpl; f_equal; lia|].
    rewrite Z.shiftr_spec by lia.
    replace (n - 22 + 22) with n by lia.
    destruct (Z.ltb_spec n 64); [reflexivity|].
    symmetry; apply (testbit_above 64); [lia|exact Hv|assumption].
Qed.

Lemma decoded_fields_rebuild_value_witness :
  packed_value (timestamp_of (Snowflake.from_uint64 (2 ^ 64 - 1)))
    (Snowflake.get_worker_id (Snowflake.from_uint64 (2 ^ 64 - 1)))
    (Snowflake.get_process_id (Snowflake.from_uint64 (2 ^ 64 - 1)))
    (Snowflake.get_increment (Snowflake.from_uint64 (2 ^ 64 - 1)))
  = 2 ^ 64 - 1.
Proof.
  apply (proj2 (decoded_fields_rebuild_value (Snowflake.from_uint64 (2 ^ 64 - 1)))).
  unfold is_uint64, UINT64_MOD; simpl; lia.
Defined.

(** X3: [<] on identifiers is the lexicographic order on (timestamp, worker id,
    process id, increment): an earlier timestamp sorts first, and ties are
    broken by the worker id, then the process id, then the increment. *)
Theorem order_is_lexicographic_on_fields (a b : snowflake) :
  Snowflake.op_lt a b = true <->
  timestamp_of a < timestamp_of b \/
  timestamp_of a = timestamp_of b /\
  (Snowflake.get_worker_id a < Snowflake.get_worker_id b \/
   Snowflake.get_worker_id a = Snowflake.get_worker_id b /\
   (Snowflake.get_process_id a < Snowflake.get_process_id b \/
    Snowflake.get_process_id a = Snowflake.get_process_id b /\
    Snowflake.get_increment a < Snowflake.get_increment b)).
Proof.
  unfold Snowflake.op_lt; rewrite Z.ltb_lt.
  destruct (decoded_fields_rebuild_value a) as [Ea _].
  destruct (decoded_fields_rebuild_value b) as [Eb _].
  destruct (decoded_fields_are_slices a) as (_ & _ & _ & Bwa & Bpa & Bia).
  destruct (decoded_fields_are_slices b) as (_ & _ & _ & Bwb & Bpb & Bib).
  rewrite Ea, Eb at 1.
  change (2 ^ 22) with 4194304; change (2 ^ 17) with 131072;
    change (2 ^ 12) with 4096.
  lia.
Qed.

(** ** Text construction: what is stored, and when it is empty *)

Lemma negated_magnitude (d : Z) :
  0 < d <= ULLONG_MAX -> to_uint64 (- d) = 2 ^ 64 - d.
Proof.
  unfold ULLONG_MAX, to_uint64; intros Hd.
  symmetry; apply (Z.mod_unique _ _ (-1)); lia.
Qed.

(** X6: after construction from text the identifier is empty exactly when the
    text has no numeric token, or its digit run is out of range, or its digit
    run stands for zero; a signed non-zero magnitude within range is never
    stored as 0. *)
Theorem text_construction_empty_iff (s : string) :
  exists sf,
    Snowflake.from_string s = ret sf /\
    (Snowflake.empty sf = true <->
     no_numeric_token s \/
     exists ws g ds rest,
       numeric_token s ws g ds rest /\
       (ULLONG_MAX < decimal_value ds \/ decimal_value ds = 0)).
Proof.
  rewrite from_string_stoull; eexists; split; [reflexivity|].
  unfold Snowflake.empty; cbn [value]; split.
  - intros He.
    destruct (token_cases s) as [Hn|(ws & g & ds & rest & Ht)]; [now left|right].
    exists ws, g, ds, rest; split; [assumption|].
    rewrite (stoull_token _ _ _ _ _ Ht) in He.
    destruct Ht as (_ & _ & [_ Hd] & _).
    pose proof (decimal_value_bounds ds Hd) as [H0 _].
    destruct (Z.ltb_spec ULLONG_MAX (decimal_value ds)) as [Hlt|Hle]; [now left|right].
    apply Z.eqb_eq in He; simpl in He.
    destruct (is_minus g); [|assumption].
    destruct (Z.eq_dec (decimal_value ds) 0) as [E|N]; [assumption|].
    rewrite negated_magnitude in He by lia.
    unfold ULLONG_MAX in Hle; lia.
  - intros [Hn|(ws & g & ds & rest & Ht & Hd)].
    + now rewrite (stoull_no_token s Hn).
    + rewrite (stoull_token _ _ _ _ _ Ht).
      destruct Hd as [Hbig|Hz].
      * apply Z.ltb_lt in Hbig; now rewrite Hbig.
      * rewrite Hz; simpl; now destruct (is_minus g).
Qed.

Lemma skip_spaces_prefix (ws s : string) :
  all_spaces ws = true -> skip_spaces (ws ++ s) = skip_spaces s.
Proof.
  induction ws as [|c ws IH]; simpl; intros Hw; [reflexivity|].
  apply andb_true_iff in Hw as [Hc Hw]; rewrite Hc; auto.
Qed.

Lemma read_digits_seen (r : string) :
  forall acc, fst (read_digits r true acc) = true.
Proof.
  induction r as [|x r IH]; intros acc; simpl; [reflexivity|].
  destruct (isdigit x); [apply IH|reflexivity].
Qed.

Lemma stoull_leading_digit (s : string) :
  starts_with isdigit s = true ->
  stoull s =
  let magnitude := snd (read_digits s true 0) in
  if ULLONG_MAX <? magnitude then throw out_of_range else ret magnitude.
Proof.
  destruct s as [|c r]; [discriminate|]; simpl starts_with; intros Hc.
  unfold stoull; simpl skip_spaces.
  rewrite (isdigit_not_space c Hc).
  pose proof (isdigit_not_sign c Hc) as Hs; unfold is_sign_char in Hs.
  apply orb_false_iff in Hs as [Hm Hp].
  unfold read_sign; rewrite Hm, Hp.
  simpl read_digits; rewrite Hc.
  match goal with
  | |- context [read_digits r true ?a] =>
      pose proof (read_digits_seen r a) as Hseen;
      destruct (read_digits r true a) as [seen mag]
  end.
  simpl in Hseen; subst seen; reflexivity.
Qed.

(** X7: what the text parser skips: leading white space, a plus sign in front of
    a digit, and leading zeros in front of a digit do not change the
    identifier that construction from text stores. *)
Theorem text_construction_ignores_padding (ws s : string) :
  (all_spaces ws = true ->
   Snowflake.from_string (ws ++ s) = Snowflake.from_string s) /\
  (starts_with isdigit s = true ->
   Snowflake.from_string (String "+" s) = Snowflake.from_string s /\
   Snowflake.from_string (String "0" s) = Snowflake.from_string s).
Proof.
  rewrite !from_string_stoull; split.
  - intros Hw; unfold stoull; now rewrite skip_spaces_prefix.
  - intros Hs; split.
    + replace (stoull (String "+" s)) with (stoull s); [reflexivity|].
      rewrite (stoull_leading_digit s Hs).
      unfold stoull; simpl skip_spaces; simpl read_sign.
      pose proof (read_digits_seen s 0) as Hseen.
      destruct s as [|c r]; [discriminate|]; simpl in Hs.
      simpl read_digits in *; rewrite Hs in *.
      match goal with
      | |- context [read_digits r true ?a] =>
          destruct (read_digits r true a) as [seen mag]
      end.
      simpl in Hseen; subst seen; reflexivity.
    + replace (stoull (String "0" s)) with (stoull s); [reflexivity|].
      rewrite (stoull_leading_digit s Hs), (stoull_leading_digit (String "0" s) eq_refl).
      destruct s as [|c r]; [discriminate|]; simpl in Hs.
      simpl read_digits; rewrite Hs; reflexivity.
Qed.

Lemma text_construction_ignores_padding_witness :
  Snowflake.from_string ("   " ++ "42") = Snowflake.from_string "42" /\
  Snowflake.from_string "+42" = Snowflake.from_string "42" /\
  Snowflake.from_string "042" = Snowflake.from_string "42".
Proof.
  destruct (text_construction_ignores_padding "   " "42") as [Hws Hpad].
  split; [apply Hws; reflexivity|apply Hpad; reflexivity].
Defined.

(** ** Decimal text and identifiers correspond one to one *)

Lemma digit_of_inj (c d : ascii) :
  isdigit c = true -> isdigit d = true -> digit_of c = digit_of d -> c = d.
Proof.
  unfold digit_of; intros _ _ E.
  rewrite <- (ascii_nat_embedding c), <- (ascii_nat_embedding d).
  f_equal; lia.
Qed.

Lemma same_length_same_value (a : string) :
  forall b : string,
    String.length a = String.length b ->
    all_digits a = true -> all_digits b = true ->
    decimal_value a = decimal_value b -> a = b.
Proof.
  induction a as [|c a IH]; intros [|d b] Hl Ha Hb Hv; try discriminate Hl;
    [reflexivity|].
  simpl in Hl, Ha, Hb, Hv.
  apply andb_true_iff in Ha as [Hc Ha]; apply andb_true_iff in Hb as [Hd Hb].
  injection Hl as Hl; rewrite <- Hl in Hv.
  pose proof (decimal_value_bounds a Ha) as Ba.
  pose proof (decimal_value_bounds b Hb) as Bb; rewrite <- Hl in Bb.
  pose proof (isdigit_digit_of c Hc); pose proof (isdigit_digit_of d Hd).
  assert (E : digit_of c = digit_of d) by nia.
  rewrite E in Hv.
  f_equal; [now apply digit_of_inj|apply IH; auto; lia].
Qed.

(** A canonical decimal with [n] digits, other than ["0"], stands for a
    value of exactly [n] digits. *)
Lemma canonical_value_range (s : string) :
  canonical_decimal s -> s <> "0"%string ->
  10 ^ (Z.of_nat (String.length s) - 1) <= decimal_value s
  < 10 ^ Z.of_nat (String.length s).
Proof.
  intros [[Hne Hd] Hc] Hnz.
  split; [|now apply decimal_value_bounds].
  destruct s as [|c r]; [congruence|].
  destruct Hc as [E|Hc]; [congruence|].
  simpl in Hd; apply andb_true_iff in Hd as [Hdc Hdr].
  pose proof (decimal_value_bounds r Hdr) as Br.
  pose proof (isdigit_digit_of c Hdc) as Bc.
  assert (digit_of c <> 0).
  { intros E; apply Hc, digit_of_inj; auto. }
  simpl String.length; simpl decimal_value.
  replace (Z.of_nat (S (String.length r)) - 1) with (Z.of_nat (String.length r)) by lia.
  nia.
Qed.

Lemma canonical_decimal_unique (a b : string) :
  canonical_decimal a -> canonical_decimal b ->
  decimal_value a = decimal_value b -> a = b.
Proof.
  intros Ha Hb Hv.
  destruct (String.string_dec a "0") as [Ea|Na];
    destruct (String.string_dec b "0") as [Eb|Nb]; try congruence.
  - subst a; pose proof (canonical_value_range b Hb Nb) as B.
    rewrite <- Hv in B; simpl decimal_value in B.
    assert (0 < 10 ^ (Z.of_nat (String.length b) - 1)).
    { apply Z.pow_pos_nonneg; [lia|].
      destruct Hb as [[Hne _] _]; destruct b; [congruence|simpl String.length; lia]. }
    lia.
  - subst b; pose proof (canonical_value_range a Ha Na) as B.
    rewrite Hv in B; simpl decimal_value in B.
    assert (0 < 10 ^ (Z.of_nat (String.length a) - 1)).
    { apply Z.pow_pos_nonneg; [lia|].
      destruct Ha as [[Hne _] _]; destruct a; [congruence|simpl String.length; lia]. }
    lia.
  - pose proof (canonical_value_range a Ha Na) as Ba.
    pose proof (canonical_value_range b Hb Nb) as Bb.
    rewrite Hv in Ba.
    assert (Hl : String.length a = String.length b).
    { destruct (Nat.lt_trichotomy (String.length a) (String.length b))
        as [L|[E|G]]; [|assumption|].
      - assert (10 ^ Z.of_nat (String.length a)
                <= 10 ^ (Z.of_nat (String.length b) - 1))
          by (apply Z.pow_le_mono_r; lia).
        lia.
      - assert (10 ^ Z.of_nat (String.length b)
                <= 10 ^ (Z.of_nat (String.length a) - 1))
          by (apply Z.pow_le_mono_r; lia).
        lia. }
    apply same_length_same_value; auto; [apply Ha|apply Hb].
Qed.


(** X8: parsing then rendering is the identity on canonical text: constructing
    an identifier from a canonical decimal text that fits 64 bits and
    converting it to JSON gives that text back. *)
Theorem parse_then_render_is_identity (text : string) :
  canonical_decimal text -> decimal_value text <= ULLONG_MAX ->
  exists sf, Snowflake.from_string text = ret sf /\
             Snowflake.to_json sf = json_string text.
Proof.
  intros Hc Hle.
  exists (Build_snowflake (decimal_value text)); split.
  - apply from_string_valid_decimal; [apply Hc|assumption].
  - unfold Snowflake.to_json; cbn [value]; f_equal.
    assert (Hv : is_uint64 (decimal_value text)).
    { destruct Hc as [[_ Hd] _].
      pose proof (decimal_value_bounds text Hd).
      unfold is_uint64, UINT64_MOD, ULLONG_MAX in *; lia. }
    destruct (to_string_spec _ Hv) as [Hcan Hval].
    now apply canonical_decimal_unique.
Qed.

Lemma parse_then_render_is_identity_witness :
  exists sf, Snowflake.from_string "18446744073709551615" = ret sf /\
             Snowflake.to_json sf = json_string "18446744073709551615".
Proof.
  apply (parse_then_render_is_identity "18446744073709551615").
  - split; [split; [discriminate|reflexivity]|right; discriminate].
  - vm_compute; discriminate.
Defined.



(** ** Conversions compose through the untyped form *)

(** X10: any identifier reaches any category in two conversions, first to the
    untyped form and from there to the target, and the raw value is kept: the
    constraint on the converting constructor rules out the direct conversion
    only. *)
Theorem conversion_through_untyped (T U : category) (v : snowflake_t U) :
  exists (w : snowflake) (r : snowflake_t T),
    Typed.convert void U v = Some w /\
    Typed.convert T void w = Some r /\
    value w = value v /\ value r = value v.
Proof.
  exists (Build_snowflake (value v)), (Build_snowflake (value v)).
  split; [reflexivity|split; [|split; reflexivity]].
  destruct T; reflexivity.
Qed.

(** ** Equality of managed objects *)

(** X11: [==] on managed objects is an equivalence relation, [!=] is its
    complement, and two objects that compare equal hold the same id, so they
    report the same creation time and hash alike. *)
Theorem managed_equality_is_equivalence
        (std_hash_uint64 : Z -> Z) (T : category) (a b c : managed T) :
  Managed.op_eq a a = true /\
  Managed.op_eq a b = Managed.op_eq b a /\
  (Managed.op_eq a b = true -> Managed.op_eq b c = true ->
   Managed.op_eq a c = true) /\
  (Managed.op_ne a b = true <-> Managed.op_eq a b = false) /\
  (Managed.op_eq a b = true ->
   a = b /\
   Managed.get_creation_time a = Managed.get_creation_time b /\
   hash std_hash_uint64 (id a) = hash std_hash_uint64 (id b)).
Proof.
  destruct a as [[x]], b as [[y]], c as [[z]].
  unfold Managed.op_eq, Managed.op_ne, Snowflake.op_eq; cbn [id to_base value].
  split; [apply Z.eqb_refl|].
  split; [apply Z.eqb_sym|].
  split; [rewrite !Z.eqb_eq; congruence|].
  split; [destruct (y =? x); simpl; split; congruence|].
  rewrite Z.eqb_eq; intros ->; repeat split.
Qed.

Lemma managed_equality_is_equivalence_witness :
  Managed.get_creation_time (Managed.make (Typed.from_integral role 42))
  = Managed.get_creation_time (Managed.make (Typed.from_integral role (2 ^ 64 + 42))).
Proof.
  destruct (managed_equality_is_equivalence (fun z => z) role
              (Managed.make (Typed.from_integral role 42))
              (Managed.make (Typed.from_integral role (2 ^ 64 + 42)))
              (Managed.make (Typed.from_integral role 42)))
    as (_ & _ & _ & _ & Heq).
  apply Heq; reflexivity.
Defined.

(** ** Creation time follows the timestamp field *)

Lemma shr_fexp_exact_canonical (q : positive) (e : Z) :
  2 ^ 52 <= Z.pos q <= 2 ^ 53 -> -1074 <= e ->
  exists m' e',
    shr_fexp 53 1024 (Z.pos q) e loc_Exact
    = (shr_record_of_loc (Z.pos m') loc_Exact, e') /\
    2 ^ 52 <= Z.pos m' < 2 ^ 53.
Proof.
  intros Hq He.
  destruct (Z.ltb_spec (Z.pos q) (2 ^ 53)) as [Hlt|Hge].
  - exists q, e; rewrite shr_fexp_53 by lia; split; [reflexivity|lia].
  - assert (E : q = 9007199254740992%positive) by lia; subst q.
    exists 4503599627370496%positive, (e + 1); rewrite shr_fexp_54 by lia.
    split; [reflexivity|lia].
Qed.

(** Rounding a quotient of 53 or 54 bits leaves a mantissa of exactly 53
    bits. *)
Lemma binary_round_aux_mantissa (q e : Z) (l : location) :
  2 ^ 52 <= q < 2 ^ 54 -> -1074 <= e <= 900 ->
  exists m' e',
    binary_round_aux 53 1024 false q e l = S754_finite false m' e' /\
    2 ^ 52 <= Z.pos m' < 2 ^ 53.
Proof.
  intros Hq He; destruct q as [|q|q]; try lia.
  unfold binary_round_aux.
  assert (Tail : forall (q' : positive) (e1 : Z),
             2 ^ 52 <= Z.pos q' <= 2 ^ 53 -> -1074 <= e1 <= 901 ->
             exists m' e',
               (let '(mrs'', e'') := shr_fexp 53 1024 (Z.pos q') e1 loc_Exact in
                match shr_m mrs'' with
                | 0 => S754_zero false
                | Z.pos m => if e'' <=? 1024 - 53 then S754_finite false m e''
                             else S754_infinity false
                | Z.neg _ => S754_nan
                end) = S754_finite false m' e' /\
               2 ^ 52 <= Z.pos m' < 2 ^ 53).
  { intros q' e1 Hq' He1.
    destruct (shr_fexp_exact q' e1) as (m1 & e1' & E1 & Hcase); [lia|lia|].
    destruct (shr_fexp_exact_canonical q' e1) as (m2 & e2' & E2 & Hm2); [lia|lia|].
    rewrite E1 in E2; injection E2 as Em Ee; subst m2 e2'.
    exists m1, e1'; rewrite E1; simpl shr_m.
    replace (e1' <=? 1024 - 53) with true by (symmetry; apply Z.leb_le; lia).
    split; [reflexivity|assumption]. }
  destruct (Z.ltb_spec (Z.pos q) (2 ^ 53)) as [Hlt|Hge].
  - rewrite shr_fexp_53 by lia.
    rewrite shr_record_of_loc_m, loc_of_shr_record_of_loc.
    destruct (round_nearest_even_pos q l) as (q' & -> & Hq').
    apply Tail; lia.
  - rewrite shr_fexp_54 by lia.
    assert (S1 : exists p r s, shr_1 (shr_record_of_loc (Z.pos q) l)
                               = Build_shr_record (Z.pos p) r s /\
                               2 * Z.pos p <= Z.pos q <= 2 * Z.pos p + 1).
    { destruct q as [p|p|]; [| |lia];
        (exists p; destruct l as [|[]]; simpl; do 2 eexists;
         (split; [reflexivity|lia])). }
    destruct S1 as (p & r & s & -> & Hp).
    simpl shr_m.
    destruct (round_nearest_even_pos p (loc_of_shr_record (Build_shr_record (Z.pos p) r s)))
      as (q' & -> & Hq').
    apply Tail; lia.
Qed.

(** The division of [get_creation_time] as one rounding of an integer
    quotient. *)
Lemma creation_time_quotient (x : Z) (k : positive) :
  10 <= Z.pos k <= 12 ->
  2 ^ (52 - Z.pos k) <= x < 2 ^ (53 - Z.pos k) ->
  exists l,
    double_div (double_of_uint64 x) (double_of_uint64 1000)
    = binary_round_aux 53 1024 false (x * 2 ^ (Z.pos k + 10) / 1000)
        (- Z.pos k - 10) l /\
    2 ^ 52 <= x * 2 ^ (Z.pos k + 10) / 1000 < 2 ^ 54.
Proof.
  intros Hk Hx.
  destruct (double_of_uint64_normal x k) as (m1 & -> & Hm1); [lia|assumption|].
  replace (double_of_uint64 1000) with (S754_finite false 8796093022208000 (-43))
    by (vm_compute; reflexivity).
  assert (Hpow : 2 ^ (52 - Z.pos k) * 2 ^ Z.pos k = 2 ^ 52)
    by (rewrite <- Z.pow_add_r by lia; f_equal; lia).
  assert (Hpow' : 2 ^ (53 - Z.pos k) * 2 ^ Z.pos k = 2 ^ 53)
    by (rewrite <- Z.pow_add_r by lia; f_equal; lia).
  assert (0 < 2 ^ Z.pos k) by (apply Z.pow_pos_nonneg; lia).
  assert (Hm1' : 2 ^ 52 <= Z.pos m1 < 2 ^ 53) by (rewrite Hm1; nia).
  unfold double_div, double_prec, double_emax.
  destruct (SFdiv_normal m1 8796093022208000 (Z.neg k) (-43)) as (l & ->);
    [assumption|lia|lia|].
  assert (Hq : Z.pos m1 * 2 ^ 53 / 8796093022208000 = x * 2 ^ (Z.pos k + 10) / 1000).
  { rewrite Hm1, Z.pow_add_r by lia.
    change 8796093022208000 with (1000 * 2 ^ 43).
    change (2 ^ 53) with (2 ^ 10 * 2 ^ 43).
    rewrite Z.mul_assoc, Z.div_mul_cancel_r by lia.
    f_equal; ring. }
  rewrite Hq.
  replace (Z.neg k - -43 - 53) with (- Z.pos k - 10) by lia.
  exists l; split; [reflexivity|].
  split.
  - apply Z.div_le_lower_bound; [lia|].
    rewrite Z.pow_add_r by lia. nia.
  - apply Z.div_lt_upper_bound; [lia|].
    rewrite Z.pow_add_r by lia. nia.
Qed.

(** The creation time as a canonical double: a mantissa of 53 bits, an
    exponent between -22 and -18, and a value within 4 microseconds of the
    exact quotient. *)
Lemma creation_time_canonical (v : Z) :
  is_uint64 v ->
  let x := Z.shiftr v 22 + Snowflake.first_january_2016 in
  exists m e,
    Snowflake.get_creation_time (Snowflake.from_uint64 v) = S754_finite false m e /\
    -22 <= e <= -18 /\
    2 ^ 52 <= Z.pos m < 2 ^ 53 /\
    x * 2 ^ 22 - 16000 <= 1000 * (Z.pos m * 2 ^ (e + 22)) <= x * 2 ^ 22 + 16000.
Proof.
  intros Hv x.
  destruct (milliseconds_range v Hv) as [Ex Hx]; fold x in Ex, Hx.
  unfold Snowflake.get_creation_time; simpl value; fold x; rewrite Ex.
  assert (K : forall k : positive,
             10 <= Z.pos k <= 12 ->
             2 ^ (52 - Z.pos k) <= x < 2 ^ (53 - Z.pos k) ->
             exists m e,
               double_div (double_of_uint64 x) (double_of_uint64 1000)
               = S754_finite false m e /\
               -22 <= e <= -18 /\
               2 ^ 52 <= Z.pos m < 2 ^ 53 /\
               x * 2 ^ 22 - 16000 <= 1000 * (Z.pos m * 2 ^ (e + 22))
               <= x * 2 ^ 22 + 16000).
  { intros k Hk Hxk.
    destruct (creation_time_rounding x k Hk Hxk) as (m & e & E & Hme).
    destruct (creation_time_quotient x k Hk Hxk) as (l & El & Hq).
    destruct (binary_round_aux_mantissa _ (- Z.pos k - 10) l Hq) as (m' & e' & E' & Hm');
      [lia|].
    rewrite El, E' in E; injection E as Em Ee; subst m' e'.
    exists m, e; split; [now rewrite El|].
    cbv zeta in Hme; clear El E' Hq.
    assert (Ek : k = 10%positive \/ k = 11%positive \/ k = 12%positive) by lia.
    destruct Ek as [-> | [-> | ->]];
      [change (2 ^ (10 + 10)) with 1048576 in Hme
      |change (2 ^ (11 + 10)) with 2097152 in Hme
      |change (2 ^ (12 + 10)) with 4194304 in Hme];
      match type of Hme with
      | context [?a / 1000] =>
          pose proof (Z.mul_div_le a 1000 eq_refl);
          pose proof (Z.mul_succ_div_gt a 1000 eq_refl);
          generalize dependent (a / 1000); intros q
      end; intros;
      change (2 ^ 22) with 4194304;
      destruct Hme as [[-> Hm]|[[-> Hm]|[-> Hm]]]; simpl Z.pow;
      (split; [lia|split; [assumption|lia]]). }
  destruct (Z.ltb_spec x (2 ^ 41)); [|destruct (Z.ltb_spec x (2 ^ 42))].
  - apply (K 12%positive); [lia|]. simpl Z.sub; lia.
  - apply (K 11%positive); [lia|]. simpl Z.sub; lia.
  - apply (K 10%positive); [lia|]. simpl Z.sub; lia.
Qed.

Ltac exponent_cases e :=
  let H := fresh in
  assert (H : e = -22 \/ e = -21 \/ e = -20 \/ e = -19 \/ e = -18) by lia;
  destruct H as [-> | [-> | [-> | [-> | ->]]]].

(** On canonical doubles of the magnitude of a creation time, [<] and [<=]
    compare the numbers the doubles stand for. *)
Lemma double_compare_scaled (m1 m2 : positive) (e1 e2 : Z) :
  2 ^ 52 <= Z.pos m1 < 2 ^ 53 -> 2 ^ 52 <= Z.pos m2 < 2 ^ 53 ->
  -22 <= e1 <= -18 -> -22 <= e2 <= -18 ->
  (double_lt (S754_finite false m1 e1) (S754_finite false m2 e2) = true <->
   Z.pos m1 * 2 ^ (e1 + 22) < Z.pos m2 * 2 ^ (e2 + 22)) /\
  (double_le (S754_finite false m1 e1) (S754_finite false m2 e2) = true <->
   Z.pos m1 * 2 ^ (e1 + 22) <= Z.pos m2 * 2 ^ (e2 + 22)).
Proof.
  intros H1 H2 He1 He2.
  unfold double_lt, double_le, SFltb, SFleb, SFcompare.
  change (Pos.compare_cont Eq m1 m2) with (Pos.compare m1 m2).
  change (2 ^ 52) with 4503599627370496 in *.
  change (2 ^ 53) with 9007199254740992 in *.
  pose proof (Pos.compare_spec m1 m2) as Hc.
  assert (Hz : match Pos.compare m1 m2 with
               | Eq => Z.pos m1 = Z.pos m2
               | Lt => Z.pos m1 < Z.pos m2
               | Gt => Z.pos m2 < Z.pos m1
               end).
  { destruct Hc as [Hc|Hc|Hc]; [now subst|now apply Pos2Z.pos_lt_pos..]. }
  clear Hc.
  exponent_cases e1; exponent_cases e2; simpl Z.compare; simpl Z.pow; cbv iota;
    try (destruct (Pos.compare m1 m2));
    (split; split; intros H; try reflexivity; try discriminate H; lia).
Qed.

(** X4: creation time orders identifiers as the timestamp field does: one
    creation time is strictly before another exactly when its timestamp is
    smaller (two distinct milliseconds never round to the same double), so
    an identifier that sorts before another was not created after it. *)
Theorem creation_time_follows_timestamp (a b : Z) :
  is_uint64 a -> is_uint64 b ->
  let sa := Snowflake.from_uint64 a in
  let sb := Snowflake.from_uint64 b in
  (double_lt (Snowflake.get_creation_time sa) (Snowflake.get_creation_time sb) = true
   <-> timestamp_of sa < timestamp_of sb) /\
  (Snowflake.op_lt sa sb = true ->
   double_le (Snowflake.get_creation_time sa) (Snowflake.get_creation_time sb) = true).
Proof.
  intros Ha Hb sa sb; subst sa sb; unfold timestamp_of; cbn [value].
  destruct (creation_time_canonical a Ha) as (ma & ea & Ea & Hea & Hma & Hxa).
  destruct (creation_time_canonical b Hb) as (mb & eb & Eb & Heb & Hmb & Hxb).
  destruct (double_compare_scaled ma mb ea eb Hma Hmb Hea Heb) as [Hlt Hle].
  assert (Same : Z.shiftr a 22 = Z.shiftr b 22 ->
                 Z.pos ma * 2 ^ (ea + 22) = Z.pos mb * 2 ^ (eb + 22)).
  { intros E.
    assert (E' : Snowflake.get_creation_time (Snowflake.from_uint64 a)
                 = Snowflake.get_creation_time (Snowflake.from_uint64 b))
      by (unfold Snowflake.get_creation_time; cbn [value Snowflake.from_uint64];
          now rewrite E).
    rewrite Ea, Eb in E'; now injection E' as -> ->. }
  rewrite Ea, Eb, Hlt, Hle.
  unfold Snowflake.first_january_2016 in Hxa, Hxb.
  change (2 ^ 22) with 4194304 in Hxa, Hxb.
  split; [split|].
  - intros H.
    destruct (Z.lt_trichotomy (Z.shiftr a 22) (Z.shiftr b 22)) as [L|[E|G]];
      [assumption|specialize (Same E); lia|lia].
  - unfold Snowflake.from_uint64; cbn [value]; intros H; lia.
  - unfold Snowflake.op_lt, Snowflake.from_uint64; cbn [value].
    rewrite Z.ltb_lt; intros H.
    assert (Hmono : Z.shiftr a 22 <= Z.shiftr b 22).
    { rewrite !Z.shiftr_div_pow2 by lia; apply Z.div_le_mono; lia. }
    destruct (Z.eq_dec (Z.shiftr a 22) (Z.shiftr b 22)) as [E|N];
      [specialize (Same E); lia|lia].
Qed.

Lemma creation_time_follows_timestamp_witness :
  double_le
    (Snowflake.get_creation_time (Snowflake.from_uint64 175928847299117063))
    (Snowflake.get_creation_time (Snowflake.from_uint64 (2 ^ 64 - 1))) = true.
Proof.
  destruct (creation_time_follows_timestamp 175928847299117063 (2 ^ 64 - 1))
    as [_ Hle].
  - unfold is_uint64, UINT64_MOD; lia.
  - unfold is_uint64, UINT64_MOD; lia.
  - apply Hle; reflexivity.
Defined.

(** X5: the creation time is the epoch instant exactly when the timestamp field
    is zero, as it is for the empty identifier and hence for a managed object
    built without an id; any later timestamp gives a strictly later time. *)
Theorem creation_time_is_epoch_iff_no_timestamp (v : Z) :
  is_uint64 v ->
  (v < 2 ^ 22 ->
   Snowflake.get_creation_time (Snowflake.from_uint64 v) = epoch_instant) /\
  (2 ^ 22 <= v ->
   double_lt epoch_instant (Snowflake.get_creation_time (Snowflake.from_uint64 v))
   = true) /\
  (forall T : category,
      Managed.get_creation_time (Managed.make_default T) = epoch_instant).
Proof.
  intros Hv; split; [|split].
  - intros Hlt; unfold Snowflake.get_creation_time; cbn [value Snowflake.from_uint64].
    unfold is_uint64 in Hv.
    rewrite Z.shiftr_div_pow2, Z.div_small by lia.
    vm_compute; reflexivity.
  - intros Hge.
    destruct (creation_time_canonical v Hv) as (m & e & E & He & Hm & Hx).
    rewrite E.
    replace epoch_instant with (S754_finite false 5956206959001600 (-22))
      by (vm_compute; reflexivity).
    apply (double_compare_scaled 5956206959001600 m (-22) e); try lia.
    assert (1 <= Z.shiftr v 22).
    { rewrite Z.shiftr_div_pow2 by lia.
      apply Z.div_le_lower_bound; lia. }
    unfold Snowflake.first_january_2016 in Hx.
    change (2 ^ 22) with 4194304 in Hx.
    change (2 ^ (-22 + 22)) with 1; lia.
  - intros T; vm_compute; reflexivity.
Qed.

Lemma creation_time_is_epoch_iff_no_timestamp_witness :
  Snowflake.get_creation_time (Snowflake.from_uint64 4194303) = epoch_instant /\
  double_lt epoch_instant (Snowflake.get_creation_time (Snowflake.from_uint64 4194304))
  = true.
Proof.
  assert (H3 : is_uint64 4194303) by (unfold is_uint64, UINT64_MOD; lia).
  assert (H4 : is_uint64 4194304) by (unfold is_uint64, UINT64_MOD; lia).
  destruct (creation_time_is_epoch_iff_no_timestamp 4194303 H3) as (Heq & _ & _).
  destruct (creation_time_is_epoch_iff_no_timestamp 4194304 H4) as (_ & Hlt & _).
  split; [apply Heq|apply Hlt]; lia.
Defined.

(** ** Typed construction from an integer *)

(** X12: the typed constructor from an integer converts its argument to
    [uint64_t]: whatever the integer, the stored value is a 64-bit value
    congruent to it modulo 2^64, so a negative argument [v >= -2^63] is stored
    as [2^64 + v], and two arguments give equal identifiers exactly when they
    are congruent modulo 2^64. *)
Theorem typed_integral_construction_wraps (T : category) (v w : Z) :
  is_uint64 (value (Typed.from_integral T v)) /\
  (value (Typed.from_integral T v) - v) mod 2 ^ 64 = 0 /\
  (- 2 ^ 63 <= v < 0 -> value (Typed.from_integral T v) = 2 ^ 64 + v) /\
  (Snowflake.op_eq (to_base (Typed.from_integral T v))
     (to_base (Typed.from_integral T w)) = true
   <-> (v - w) mod 2 ^ 64 = 0).
Proof.
  unfold Typed.from_integral, Snowflake.op_eq, Snowflake.from_uint64, to_base,
    to_uint64, is_uint64, UINT64_MOD; cbn [value].
  rewrite Z.eqb_eq.
  split; [apply Z.mod_pos_bound; reflexivity|].
  split; [rewrite Zminus_mod_idemp_l, Z.sub_diag; reflexivity|].
  split.
  - change (2 ^ 63) with 9223372036854775808; intros H.
    symmetry; apply (Z.mod_unique _ _ (-1)); lia.
  - rewrite <- (Z.cong_iff_0 v w); split; congruence.
Qed.

Lemma typed_integral_construction_wraps_witness :
  value (Typed.from_integral guild (-1)) = 2 ^ 64 + -1.
Proof.
  destruct (typed_integral_construction_wraps guild (-1) 0) as (_ & _ & Hneg & _).
  apply Hneg; lia.
Defined.
